(** * esp32_mini_game: a shallow embedding of [main.py]

    The program is a MicroPython puzzle box: four debounced buttons, a
    buzzer, a four-digit countdown display and two challenge protocols
    ([morse] and [pitch]), all running as cooperative [uasyncio] tasks
    that hand the next game phase to [main] through a queue.

    Conventions of the embedding.
    - Python integers are [Z]; clock readings and durations are exact
      rationals [Q] (seconds).  Floating-point rounding of [time.time()]
      is not modelled.
    - A coroutine runs without interruption between two suspension
      points ([asyncio.sleep], [Event.wait], awaiting a pending task), so
      each such stretch is a function on the program state.
    - What the other tasks do while a protocol is suspended is an input:
      the [pending] schedule of the world (see [activity]).
    - [urandom.randint] draws from a stream of raw numbers carried by
      the world. *)

From Stdlib Require Import ZArith QArith Qabs List Bool String Lia Lqa.
Import ListNotations.
Open Scope Z_scope.

(** ** Python built-ins used by the program *)

(** [l[i]] with Python's negative indices; [None] is [IndexError]. *)
Definition getitem {A : Type} (l : list A) (i : Z) : option A :=
  let n := Z.of_nat (List.length l) in
  if 0 <=? i then nth_error l (Z.to_nat i)
  else if - n <=? i then nth_error l (Z.to_nat (n + i))
  else None.

Fixpoint replace_nth {A : Type} (l : list A) (i : nat) (x : A) : option (list A) :=
  match l, i with
  | [], _ => None
  | _ :: r, O => Some (x :: r)
  | y :: r, S j => option_map (cons y) (replace_nth r j x)
  end.

(** [l[i] = x]; [None] is [IndexError]. *)
Definition setitem {A : Type} (l : list A) (i : Z) (x : A) : option (list A) :=
  let n := Z.of_nat (List.length l) in
  if 0 <=? i then replace_nth l (Z.to_nat i) x
  else if - n <=? i then replace_nth l (Z.to_nat (n + i)) x
  else None.

(** [sum(l)] *)
Definition sum (l : list Z) : Z := fold_left Z.add l 0.

(** [divmod(a, b)]: floor division, the remainder has the sign of [b]. *)
Definition divmod (a b : Z) : Z * Z := (a / b, a mod b).

(** [x > y] on clock differences. *)
Definition Qgt_bool (x y : Q) : bool := negb (Qle_bool x y).

(** [random.randint(a, b)] from one raw number of the entropy stream:
    every value of [a..b] and no other. *)
Definition randint_of (a b raw : Z) : Z := a + raw mod (b - a + 1).

Inductive exn : Set := IndexError | NotImplementedError | AttributeError.

(** ** class SimpleQueue *)

Module SimpleQueue.
Section WithItem.
Context {A : Type}.

Record t : Type := mk { _queue : list A; _ev : bool }.

(** [__init__] *)
Definition new : t := {| _queue := []; _ev := false |}.

Definition qsize (q : t) : Z := Z.of_nat (List.length (_queue q)).

Definition empty (q : t) : bool := Z.of_nat (List.length (_queue q)) =? 0.

(** [put]: append, then set the event.  There is no suspension point. *)
Definition put (item : A) (q : t) : t :=
  {| _queue := _queue q ++ [item]; _ev := true |}.

(** [get].  While the queue is empty the caller waits on the event:
    that is [None], and the queue is as it was.  Otherwise the head is
    popped, and the event is cleared when that empties the queue. *)
Definition get (q : t) : option (A * t) :=
  if empty q then None
  else match _queue q with
       | [] => None
       | item :: rest =>
           let q1 := {| _queue := rest; _ev := _ev q |} in
           Some (item, if empty q1 then {| _queue := rest; _ev := false |} else q1)
       end.

(** A schedule of calls on one queue, by any number of tasks. *)
Inductive call : Type := Put (item : A) | Get.

(** Runs the calls in order; returns what the [get]s that did not have
    to wait returned, in order of delivery, and the queue. *)
Fixpoint run (calls : list call) (q : t) : list A * t :=
  match calls with
  | [] => ([], q)
  | Put x :: rest => run rest (put x q)
  | Get :: rest =>
      match get q with
      | None => run rest q
      | Some (x, q1) => let (out, q2) := run rest q1 in (x :: out, q2)
      end
  end.

Fixpoint puts (calls : list call) : list A :=
  match calls with
  | [] => []
  | Put x :: rest => x :: puts rest
  | Get :: rest => puts rest
  end.
End WithItem.
Arguments t : clear implicits.
Arguments call : clear implicits.
End SimpleQueue.

(** ** The part of [uasyncio] the program relies on *)

Module EventLoop.
Inductive task_state : Set := Pending | Done | Raised (e : exn).

Section WithCoro.
Context {C : Type}.

Record task : Type := mk_task { coro : C; state : task_state }.

(** The tasks ever created; a task handle is a position in the list. *)
Definition t : Type := list task.

(** [asyncio.create_task(c)] *)
Definition create_task (c : C) (el : t) : nat * t :=
  (List.length el, el ++ [mk_task c Pending]).

(** How [await h] ends for the caller, as far as the task has got. *)
Inductive awaited : Set := Returns | Raises (e : exn) | Suspends.

Definition await_task (h : nat) (el : t) : awaited :=
  match nth_error el h with
  | Some (mk_task _ Done) => Returns
  | Some (mk_task _ (Raised e)) => Raises e
  | Some (mk_task _ Pending) => Suspends
  | None => Suspends
  end.

(** The scheduler has run task [h] until it ended in state [st]. *)
Fixpoint finish (h : nat) (st : task_state) (el : t) : t :=
  match el, h with
  | [], _ => []
  | k :: rest, O => mk_task (coro k) st :: rest
  | k :: rest, S h' => k :: finish h' st rest
  end.

(** The spawned activities running coroutine [c] that have not ended. *)
Definition outstanding (same : C -> bool) (el : t) : nat :=
  List.length (filter (fun k => match state k with
                                | Pending => same (coro k)
                                | _ => false
                                end) el).
End WithCoro.
Arguments task : clear implicits.
Arguments t : clear implicits.
End EventLoop.

(** ** class AsyncLooping *)

Module AsyncLooping.
Record t : Set := mk { loop_runing : bool; loop_task : option nat }.

(** [__init__] *)
Definition new : t := {| loop_runing := false; loop_task := None |}.

(** [loop] of the base class: the spawned activity ends at once, by
    raising. *)
Definition loop : EventLoop.task_state := EventLoop.Raised NotImplementedError.

Section WithCoro.
Context {C : Type}.

(** [start]; [loop_of_self] stands for the coroutine [self.loop()]. *)
Definition start (loop_of_self : C) (self : t) (el : EventLoop.t C)
  : t * EventLoop.t C :=
  let self1 := {| loop_runing := true; loop_task := loop_task self |} in
  let (h, el1) := EventLoop.create_task loop_of_self el in
  ({| loop_runing := loop_runing self1; loop_task := Some h |}, el1).

(** [stop]: the flag is cleared first; the handle, when there is one,
    is awaited. *)
Definition stop (self : t) (el : EventLoop.t C) : t * EventLoop.awaited :=
  let self1 := {| loop_runing := false; loop_task := loop_task self |} in
  match loop_task self1 with
  | Some h => (self1, EventLoop.await_task h el)
  | None => (self1, EventLoop.Returns)
  end.
End WithCoro.
End AsyncLooping.


(** ** Module-level objects and the functions stored in them *)

Inductive button : Set :=
  up_left_button | up_right_button | down_left_button | down_right_button.

(** The coroutine functions that the program stores as callbacks. *)
Inductive callback : Set :=
| transfer_to_win
| transfer_to_lose
| transfer_to_game
| record_press_time
| record_release_time.

(** The coroutine objects that travel through [transfer_queue]:
    [game_win()], [game_over()], [game()], [morse()], [pitch()]. *)
Inductive transfer : Set := Game_win | Game_over | Game | Morse | Pitch.

(** The coroutines handed to [asyncio.create_task]. *)
Inductive coroutine : Set :=
| Button_loop (b : button)
| DigitalDisplay_loop
| play_morse (tape : list Z)
| play_pitch (tape : list Z).

Definition button_eqb (a b : button) : bool :=
  match a, b with
  | up_left_button, up_left_button
  | up_right_button, up_right_button
  | down_left_button, down_left_button
  | down_right_button, down_right_button => true
  | _, _ => false
  end.

(** ** class Button *)

Module Button.
(** The [AsyncLooping] attributes of a button.  [Button.__init__] calls
    [Pin.__init__] only, so [AsyncLooping.__init__] does not run for a
    button: [loop_runing] and [loop_task] do not exist until an
    assignment creates them.  [start] assigns both; [stop] assigns
    [loop_runing] before it reads [loop_task]. *)
Inductive attributes : Set :=
| unset
| loop_runing_only (loop_runing : bool)
| assigned (a : AsyncLooping.t).

Record t : Set := mk {
  base : attributes;
  state : bool;
  on_pressed : option callback;
  on_released : option callback }.

(** [__init__] *)
Definition new : t :=
  {| base := unset; state := false;
     on_pressed := None; on_released := None |}.

(** Reading [self.loop_runing] and [self.loop_task]; [None] is
    [AttributeError]. *)
Definition loop_runing (self : t) : option bool :=
  match base self with
  | unset => None
  | loop_runing_only r => Some r
  | assigned a => Some (AsyncLooping.loop_runing a)
  end.

Definition loop_task (self : t) : option (option nat) :=
  match base self with
  | assigned a => Some (AsyncLooping.loop_task a)
  | _ => None
  end.

(** [is_pressed]: [not self.value()], the input is active-low. *)
Definition is_pressed (value : Z) : bool := value =? 0.

Definition set_on_pressed (cb : callback) (self : t) : t :=
  {| base := base self; state := state self;
     on_pressed := Some cb; on_released := on_released self |}.

Definition set_on_released (cb : callback) (self : t) : t :=
  {| base := base self; state := state self;
     on_pressed := on_pressed self; on_released := Some cb |}.

(** One pass of [loop] after its 10 ms sleep, reading [value] from the
    pin: the button afterwards and the callback it awaits, if any. *)
Definition sample (value : Z) (self : t) : t * option callback :=
  let is_pressed := is_pressed value in
  if negb (xorb is_pressed (state self)) then (self, None)
  else
    let self1 := {| base := base self; state := is_pressed;
                    on_pressed := on_pressed self;
                    on_released := on_released self |} in
    if is_pressed then (self1, on_pressed self1)
    else (self1, on_released self1).

Definition with_base (b : attributes) (self : t) : t :=
  {| base := b; state := state self;
     on_pressed := on_pressed self; on_released := on_released self |}.

(** [start], inherited from [AsyncLooping]: two assignments that read
    neither attribute, so it runs alike whether they exist or not. *)
Definition start (me : button) (self : t) (el : EventLoop.t coroutine)
  : t * EventLoop.t coroutine :=
  let (h, el1) := EventLoop.create_task (Button_loop me) el in
  (with_base (assigned {| AsyncLooping.loop_runing := true;
                          AsyncLooping.loop_task := Some h |}) self, el1).

(** [stop], inherited from [AsyncLooping].  [self.loop_runing = False]
    is carried out first; reading [self.loop_task] then raises
    [AttributeError] when no [start] has assigned it. *)
Definition stop (self : t) (el : EventLoop.t coroutine) : t * EventLoop.awaited :=
  match base self with
  | assigned a =>
      let (b, r) := AsyncLooping.stop a el in
      (with_base (assigned b) self, r)
  | unset | loop_runing_only _ =>
      (with_base (loop_runing_only false) self, EventLoop.Raises AttributeError)
  end.

(** The edge that one pass detects when it reads [value]: [Some true] a
    press, [Some false] a release, [None] no change. *)
Definition edge (value : Z) (self : t) : option bool :=
  let is_pressed := is_pressed value in
  if negb (xorb is_pressed (state self)) then None else Some is_pressed.

(** Successive passes of [loop], one per pin value read: the button
    afterwards and the callbacks awaited, in order. *)
Fixpoint passes (values : list Z) (self : t) : t * list callback :=
  match values with
  | [] => (self, [])
  | value :: rest =>
      let (self1, cb) := sample value self in
      let (self2, cbs) := passes rest self1 in
      (self2, match cb with
              | Some c => c :: cbs
              | None => cbs
              end)
  end.

(** The edges detected by successive passes, in order. *)
Fixpoint edges (values : list Z) (self : t) : list bool :=
  match values with
  | [] => []
  | value :: rest =>
      match edge value self with
      | Some e => e :: edges rest (fst (sample value self))
      | None => edges rest (fst (sample value self))
      end
  end.

(** [loop] for as many passes as there are pin values: the test of
    [while self.loop_runing] raises [AttributeError] on a button that has
    no such attribute; nothing runs unless the flag is set, and the body
    does not touch it. *)
Definition loop (values : list Z) (self : t) : exn + t * list callback :=
  match loop_runing self with
  | None => inl AttributeError
  | Some true => inr (passes values self)
  | Some false => inr (self, [])
  end.
End Button.

(** ** class DigitalDisplay *)

Module DigitalDisplay.
(** What one can observe of the display task: the driver calls, the
    sleeps and the awaited time-up callback. *)
Inductive io : Set :=
| numbers (num1 num2 : Z)
| write (segments : list Z)
| sleep (seconds : Q)
| timeup (cb : callback).

Record t : Set := mk {
  base : AsyncLooping.t;
  minute : Z;
  second : Z;
  timeup_callback : option callback;
  is_pause : bool;
  is_show : bool }.

(** [__init__] *)
Definition new : t :=
  {| base := AsyncLooping.new; minute := 0; second := 0;
     timeup_callback := None; is_pause := false; is_show := true |}.

Definition with_base (b : AsyncLooping.t) (self : t) : t :=
  {| base := b; minute := minute self; second := second self;
     timeup_callback := timeup_callback self;
     is_pause := is_pause self; is_show := is_show self |}.

Definition with_time (m s : Z) (self : t) : t :=
  {| base := base self; minute := m; second := s;
     timeup_callback := timeup_callback self;
     is_pause := is_pause self; is_show := is_show self |}.

Definition with_show (v : bool) (self : t) : t :=
  {| base := base self; minute := minute self; second := second self;
     timeup_callback := timeup_callback self;
     is_pause := is_pause self; is_show := v |}.

Definition pause (self : t) : t :=
  {| base := base self; minute := minute self; second := second self;
     timeup_callback := timeup_callback self;
     is_pause := true; is_show := is_show self |}.

Definition set_timeup_callback (cb : callback) (self : t) : t :=
  {| base := base self; minute := minute self; second := second self;
     timeup_callback := Some cb;
     is_pause := is_pause self; is_show := is_show self |}.

(** [set_time(second, minute)] *)
Definition set_time (second minute : Z) (self : t) : t :=
  let (quotient, second) := divmod second 60 in
  let minute := minute + quotient in
  with_time minute second self.

Definition loop_runing (self : t) : bool := AsyncLooping.loop_runing (base self).

(** The paused branch of the loop body: sleep, toggle, render. *)
Definition blink (self : t) : list io * t :=
  let self1 := with_show (negb (is_show self)) self in
  if is_show self1
  then ([sleep 0.5; numbers (minute self1) (second self1)], self1)
  else ([sleep 0.5; write [0; 0; 0; 0]], self1).

(** The running branch up to and including its one-second sleep. *)
Definition tick (self : t) : list io * t :=
  let second := second self - 1 in
  let minute := minute self in
  let (second, minute) :=
    if second <? 0 then (59, minute - 1) else (second, minute) in
  let minute := if minute <? 0 then 0 else minute in
  ([numbers minute second; sleep 1], with_time minute second self).

(** The running branch after its sleep: the time-up test. *)
Definition expire (self : t) : list io * t :=
  if (second self =? 0) && (minute self =? 0) then
    let self1 :=
      with_base {| AsyncLooping.loop_runing := false;
                   AsyncLooping.loop_task := AsyncLooping.loop_task (base self) |}
                self in
    match timeup_callback self1 with
    | Some cb => ([timeup cb], self1)
    | None => ([], self1)
    end
  else ([], self).

(** One pass through the body of [while self.loop_runing]. *)
Definition loop_body (self : t) : list io * t :=
  if is_pause self then blink self
  else
    let (o1, self1) := tick self in
    let (o2, self2) := expire self1 in
    (o1 ++ o2, self2).

(** [loop], for at most [fuel] passes: the trace and the display when the
    loop has exited or the passes are used up.  The loop has exited when
    [loop_runing] is false in the result. *)
Fixpoint loop (fuel : nat) (self : t) : list io * t :=
  match fuel with
  | O => ([], self)
  | S fuel' =>
      if loop_runing self then
        let (o1, self1) := loop_body self in
        let (o2, self2) := loop fuel' self1 in
        (o1 ++ o2, self2)
      else ([], self)
  end.

(** [start] and [stop], inherited from [AsyncLooping]. *)
Definition start (self : t) (el : EventLoop.t coroutine) : t * EventLoop.t coroutine :=
  let (b, el1) := AsyncLooping.start DigitalDisplay_loop (base self) el in
  (with_base b self, el1).

Definition stop (self : t) (el : EventLoop.t coroutine) : t * EventLoop.awaited :=
  let (b, r) := AsyncLooping.stop (base self) el in
  (with_base b self, r).

(** The duration a minute:second pair stands for, in seconds. *)
Definition duration (num1 num2 : Z) : Z := 60 * num1 + num2.

(** The [numbers] calls of a trace, as durations. *)
Fixpoint renders (tr : list io) : list (Z * Z) :=
  match tr with
  | [] => []
  | numbers m s :: rest => (m, s) :: renders rest
  | _ :: rest => renders rest
  end.

(** How many times the time-up callback was awaited. *)
Fixpoint timeups (tr : list io) : nat :=
  match tr with
  | [] => O
  | timeup _ :: rest => S (timeups rest)
  | _ :: rest => timeups rest
  end.
End DigitalDisplay.

(** ** The program state and the other tasks *)

(** What another task does when the scheduler runs it while a protocol
    is suspended: a button's polling loop wakes from its 10 ms sleep and
    reads [value] from its pin, or the display's loop has reached 0:00
    and awaits its time-up callback.  [now] is what [time.time()] returns
    at that moment. *)
Inductive wake : Set :=
| button_polls (b : button) (value : Z)
| display_times_up.

Record activity : Set := at_time { now : Q; what : wake }.

(** The four module-level [Button] objects. *)
Record Panel : Set := mk_panel {
  up_left : Button.t;
  up_right : Button.t;
  down_left : Button.t;
  down_right : Button.t }.

Record world : Type := mk_world {
  panel : Panel;
  digital_display : DigitalDisplay.t;
  transfer_queue : SimpleQueue.t transfer;
  time_queue : SimpleQueue.t (Q * string);
  play_task : option nat;
  tasks : EventLoop.t coroutine;
  entropy : nat -> Z;
  drawn : nat;
  clock : Q;
  pending : list (list activity) }.

Definition set_panel (v : Panel) (w : world) : world :=
  mk_world v (digital_display w) (transfer_queue w) (time_queue w)
           (play_task w) (tasks w) (entropy w) (drawn w) (clock w) (pending w).

Definition set_digital_display (v : DigitalDisplay.t) (w : world) : world :=
  mk_world (panel w) v (transfer_queue w) (time_queue w)
           (play_task w) (tasks w) (entropy w) (drawn w) (clock w) (pending w).

Definition set_transfer_queue (v : SimpleQueue.t transfer) (w : world) : world :=
  mk_world (panel w) (digital_display w) v (time_queue w)
           (play_task w) (tasks w) (entropy w) (drawn w) (clock w) (pending w).

Definition set_time_queue (v : SimpleQueue.t (Q * string)) (w : world) : world :=
  mk_world (panel w) (digital_display w) (transfer_queue w) v
           (play_task w) (tasks w) (entropy w) (drawn w) (clock w) (pending w).

Definition set_play_task (v : option nat) (w : world) : world :=
  mk_world (panel w) (digital_display w) (transfer_queue w) (time_queue w)
           v (tasks w) (entropy w) (drawn w) (clock w) (pending w).

Definition set_tasks (v : EventLoop.t coroutine) (w : world) : world :=
  mk_world (panel w) (digital_display w) (transfer_queue w) (time_queue w)
           (play_task w) v (entropy w) (drawn w) (clock w) (pending w).

Definition set_drawn (v : nat) (w : world) : world :=
  mk_world (panel w) (digital_display w) (transfer_queue w) (time_queue w)
           (play_task w) (tasks w) (entropy w) v (clock w) (pending w).

Definition set_clock (v : Q) (w : world) : world :=
  mk_world (panel w) (digital_display w) (transfer_queue w) (time_queue w)
           (play_task w) (tasks w) (entropy w) (drawn w) v (pending w).

Definition set_pending (v : list (list activity)) (w : world) : world :=
  mk_world (panel w) (digital_display w) (transfer_queue w) (time_queue w)
           (play_task w) (tasks w) (entropy w) (drawn w) (clock w) v.

(** The button object that a name refers to. *)
Definition buttons (w : world) (b : button) : Button.t :=
  match b with
  | up_left_button => up_left (panel w)
  | up_right_button => up_right (panel w)
  | down_left_button => down_left (panel w)
  | down_right_button => down_right (panel w)
  end.

Definition update_button (b : button) (f : Button.t -> Button.t) (w : world) : world :=
  let p := panel w in
  set_panel
    match b with
    | up_left_button =>
        mk_panel (f (up_left p)) (up_right p) (down_left p) (down_right p)
    | up_right_button =>
        mk_panel (up_left p) (f (up_right p)) (down_left p) (down_right p)
    | down_left_button =>
        mk_panel (up_left p) (up_right p) (f (down_left p)) (down_right p)
    | down_right_button =>
        mk_panel (up_left p) (up_right p) (down_left p) (f (down_right p))
    end w.

(** Calling a stored callback.  None of them has a suspension point:
    each is one [put].  The two recording closures read the variable
    [time_queue] of the running protocol when they are called, so they
    always write to the queue of the current iteration. *)
Definition invoke (cb : callback) (w : world) : world :=
  match cb with
  | transfer_to_win =>
      set_transfer_queue (SimpleQueue.put Game_win (transfer_queue w)) w
  | transfer_to_lose =>
      set_transfer_queue (SimpleQueue.put Game_over (transfer_queue w)) w
  | transfer_to_game =>
      set_transfer_queue (SimpleQueue.put Game (transfer_queue w)) w
  | record_press_time =>
      set_time_queue (SimpleQueue.put (clock w, "press"%string) (time_queue w)) w
  | record_release_time =>
      set_time_queue (SimpleQueue.put (clock w, "release"%string) (time_queue w)) w
  end.

Definition invoke_opt (cb : option callback) (w : world) : world :=
  match cb with
  | Some c => invoke c w
  | None => w
  end.

Definition run_activity (a : activity) (w : world) : world :=
  let w := set_clock (now a) w in
  match what a with
  | button_polls b value =>
      let (self1, cb) := Button.sample value (buttons w b) in
      invoke_opt cb (update_button b (fun _ => self1) w)
  | display_times_up =>
      invoke_opt (DigitalDisplay.timeup_callback (digital_display w)) w
  end.

Definition run_activities (l : list activity) (w : world) : world :=
  fold_left (fun w a => run_activity a w) l w.

(** ** Coroutines as state-passing programs *)

(** A call ends by returning, by raising, or suspended for good because
    the schedule holds no further activity of the other tasks. *)
Inductive result (A : Type) : Type :=
| Ret (a : A) (w : world)
| Exn (e : exn) (w : world)
| Blocked (w : world).
Arguments Ret {A} a w.
Arguments Exn {A} e w.
Arguments Blocked {A} w.

Definition M (A : Type) : Type := world -> result A.

Definition ret {A : Type} (a : A) : M A := fun w => Ret a w.

Definition bind {A B : Type} (m : M A) (k : A -> M B) : M B :=
  fun w =>
    match m w with
    | Ret a w1 => k a w1
    | Exn e w1 => Exn e w1
    | Blocked w1 => Blocked w1
    end.

Declare Scope coro_scope.
Delimit Scope coro_scope with coro.
Notation "x <- m ;; k" := (bind m (fun x => k))
  (at level 61, m at next level, right associativity) : coro_scope.
Notation "m ;; k" := (bind m (fun _ => k))
  (at level 61, right associativity) : coro_scope.
Open Scope coro_scope.

Definition raise {A : Type} (e : exn) : M A := fun w => Exn e w.

Definition modify (f : world -> world) : M unit := fun w => Ret tt (f w).

Definition read {A : Type} (f : world -> A) : M A := fun w => Ret (f w) w.

(** An optional value whose absence is [IndexError]. *)
Definition index {A : Type} (o : option A) : M A :=
  match o with
  | Some a => ret a
  | None => raise IndexError
  end.

(** [random.randint(a, b)] *)
Definition randint (a b : Z) : M Z :=
  fun w => Ret (randint_of a b (entropy w (drawn w))) (set_drawn (S (drawn w)) w).

(** [[m for _ in range(n)]] *)
Fixpoint comprehension {A : Type} (n : nat) (m : M A) : M (list A) :=
  match n with
  | O => ret []
  | S n' => x <- m ;; l <- comprehension n' m ;; ret (x :: l)
  end.

(** A suspension point: the scheduler runs the other tasks' next
    activities, then resumes the caller. *)
Definition suspend : M unit :=
  fun w =>
    match pending w with
    | [] => Blocked w
    | acts :: rest => Ret tt (run_activities acts (set_pending rest w))
    end.

(** [await asyncio.sleep(t)] *)
Definition asyncio_sleep (t : Q) : M unit := suspend.

(** [while cond: await asyncio.sleep(t)].  The loop is entered only when
    [cond] holds; each sleep then uses up the next entry of the schedule,
    and the test is repeated in the world the sleep leaves.  With the
    schedule used up the coroutine sleeps for good. *)
Fixpoint keep_sleeping (schedule : list (list activity)) (cond : world -> bool)
  (w : world) : result unit :=
  match schedule with
  | [] => Blocked w
  | acts :: later =>
      let w1 := run_activities acts (set_pending later w) in
      if cond w1 then keep_sleeping later cond w1 else Ret tt w1
  end.

Definition while_sleep (cond : world -> bool) (t : Q) : M unit :=
  fun w => if cond w then keep_sleeping (pending w) cond w else Ret tt w.

(** [await time_queue.get()]: [SimpleQueue.get] with its wait on the
    event spelled out.  The caller is resumed after each entry of the
    schedule and tests the queue again. *)
Fixpoint wait_for_item (schedule : list (list activity)) (w : world)
  : result (Q * string) :=
  match schedule with
  | [] => Blocked w
  | acts :: later =>
      let w1 := run_activities acts (set_pending later w) in
      match SimpleQueue.get (time_queue w1) with
      | Some (item, q) => Ret item (set_time_queue q w1)
      | None => wait_for_item later w1
      end
  end.

Definition time_queue_get : M (Q * string) :=
  fun w =>
    match SimpleQueue.get (time_queue w) with
    | Some (item, q) => Ret item (set_time_queue q w)
    | None => wait_for_item (pending w) w
    end.

(** [await cb()] for a stored callback. *)
Definition await_callback (cb : callback) : M unit := modify (invoke cb).

Definition set_on_pressed (b : button) (cb : callback) : M unit :=
  modify (update_button b (Button.set_on_pressed cb)).

Definition set_on_released (b : button) (cb : callback) : M unit :=
  modify (update_button b (Button.set_on_released cb)).

Definition set_all_buttons_with (func : callback) : M unit :=
  set_on_pressed up_left_button func ;;
  set_on_pressed up_right_button func ;;
  set_on_pressed down_left_button func ;;
  set_on_pressed down_right_button func.

(** [play_task = asyncio.create_task(c)] *)
Definition create_play_task (c : coroutine) : M unit :=
  modify (fun w =>
            let (h, el) := EventLoop.create_task c (tasks w) in
            set_play_task (Some h) (set_tasks el w)).

(** How a block that may execute [return] ends. *)
Inductive control : Set := Continue | Returned.

(** ** The challenge protocols *)

(** The button list of [morse], in the order of the source. *)
Definition morse_buttons : list button :=
  [up_left_button; down_right_button; up_right_button; down_left_button].

(** [code = [random.randint(0, 1) for _ in range(4)]] followed by
    [code[random.randint(0, 3)] = 1]. *)
Definition draw_code : M (list Z) :=
  code <- comprehension 4 (randint 0 1) ;;
  i <- randint 0 3 ;;
  index (setitem code i 1).

(** The body of [for long, b in zip(code, buttons)] of [morse].  The
    [print] before the early [return] is left out. *)
Definition morse_round (long : Z) (b : button) : M control :=
  set_all_buttons_with transfer_to_lose ;;
  modify (set_time_queue SimpleQueue.new) ;;
  set_on_pressed b record_press_time ;;
  set_on_released b record_release_time ;;
  while_sleep (fun w => (SimpleQueue.qsize (time_queue w) <? 2)
                        && SimpleQueue.empty (transfer_queue w)) 0.05 ;;
  transfer_empty <- read (fun w => SimpleQueue.empty (transfer_queue w)) ;;
  if negb transfer_empty then ret Returned
  else
    first <- read (fun w => getitem (SimpleQueue._queue (time_queue w)) 0) ;;
    first <- index first ;;
    (if String.eqb (snd first) "release" then time_queue_get ;; ret tt
     else ret tt) ;;
    press <- time_queue_get ;;
    release <- time_queue_get ;;
    let press_time := fst press in
    let release_time := fst release in
    let hold_time := Qabs (release_time - press_time)%Q in
    let is_hold_long := Qgt_bool hold_time 0.5 in
    if negb (Z.lxor long (Z.b2z is_hold_long) =? 0)
    then await_callback transfer_to_lose ;; ret Continue
    else ret Continue.

Fixpoint morse_for (pairs : list (Z * button)) : M control :=
  match pairs with
  | [] => ret Continue
  | (long, b) :: rest =>
      c <- morse_round long b ;;
      match c with
      | Returned => ret Returned
      | Continue => morse_for rest
      end
  end.

Definition morse : M unit :=
  mode <- randint 0 1 ;;
  code <- draw_code ;;
  let tape := [mode; 1] ++ code in
  create_play_task (play_morse tape) ;;
  (if mode =? 0 then
     set_all_buttons_with transfer_to_lose ;;
     let count := sum code - 1 in
     b <- index (getitem morse_buttons count) ;;
     set_on_pressed b transfer_to_win
   else ret tt) ;;
  if mode =? 1 then
    c <- morse_for (combine code morse_buttons) ;;
    match c with
    | Returned => ret tt
    | Continue => await_callback transfer_to_win
    end
  else ret tt.

(** The block under [if mode == 0] of [pitch]. *)
Definition pitch_low_high (long up right : Z) : M control :=
  row <- index (getitem [[down_left_button; down_right_button];
                         [up_left_button; up_right_button]] up) ;;
  b <- index (getitem row right) ;;
  modify (set_time_queue SimpleQueue.new) ;;
  set_on_pressed b record_press_time ;;
  set_on_released b record_release_time ;;
  while_sleep (fun w => (SimpleQueue.qsize (time_queue w) <? 2)
                        && SimpleQueue.empty (transfer_queue w)) 0.05 ;;
  first <- read (fun w => getitem (SimpleQueue._queue (time_queue w)) 0) ;;
  first <- index first ;;
  (if String.eqb (snd first) "release" then time_queue_get ;; ret tt
   else ret tt) ;;
  transfer_empty <- read (fun w => SimpleQueue.empty (transfer_queue w)) ;;
  if negb transfer_empty then ret Returned
  else
    press <- time_queue_get ;;
    release <- time_queue_get ;;
    let press_time := fst press in
    let release_time := fst release in
    let hold_time := (release_time - press_time)%Q in
    let is_hold_long := Qgt_bool hold_time 0.5 in
    if negb (Z.lxor long (Z.b2z is_hold_long) =? 0)
    then await_callback transfer_to_lose ;; ret Continue
    else await_callback transfer_to_win ;; ret Continue.

Definition pitch : M unit :=
  mode <- randint 0 1 ;;
  long <- randint 0 1 ;;
  up <- randint 0 1 ;;
  right <- randint 0 1 ;;
  let tape := [mode; Z.lxor mode 1; long; up; right] in
  create_play_task (play_pitch tape) ;;
  set_all_buttons_with transfer_to_lose ;;
  c <- (if mode =? 0 then pitch_low_high long up right else ret Continue) ;;
  match c with
  | Returned => ret tt
  | Continue =>
      if mode =? 1 then
        b <- index (getitem [down_left_button; up_right_button] right) ;;
        set_on_pressed b transfer_to_win
      else ret tt
  end.

Definition game (time : Z) : M unit :=
  modify (fun w => set_digital_display
            (DigitalDisplay.set_timeup_callback transfer_to_lose (digital_display w)) w) ;;
  modify (fun w => set_digital_display
            (DigitalDisplay.set_time time 0 (digital_display w)) w) ;;
  modify (fun w =>
            let (d, el) := DigitalDisplay.start (digital_display w) (tasks w) in
            set_digital_display d (set_tasks el w)) ;;
  r <- randint 0 1 ;;
  if negb (r =? 0)
  then modify (fun w => set_transfer_queue (SimpleQueue.put Morse (transfer_queue w)) w)
  else modify (fun w => set_transfer_queue (SimpleQueue.put Pitch (transfer_queue w)) w).

(** The module-level statements: the objects are created and the four
    button loops started.  [raw] is the entropy of [urandom], [schedule]
    what the other tasks will do at each later suspension. *)
Definition start_button (b : button) (w : world) : world :=
  let (self1, el) := Button.start b (buttons w b) (tasks w) in
  set_tasks el (update_button b (fun _ => self1) w).

Definition boot (raw : nat -> Z) (schedule : list (list activity)) : world :=
  let w := {| panel := mk_panel Button.new Button.new Button.new Button.new;
              digital_display := DigitalDisplay.new;
              transfer_queue := SimpleQueue.new;
              time_queue := SimpleQueue.new;
              play_task := None;
              tasks := [];
              entropy := raw;
              drawn := O;
              clock := 0;
              pending := schedule |} in
  start_button down_right_button
    (start_button down_left_button
       (start_button up_right_button
          (start_button up_left_button w))).

(** The outcomes waiting in the transfer queue. *)
Definition outcomes (w : world) : list transfer := SimpleQueue._queue (transfer_queue w).

Definition final_world {A : Type} (r : result A) : world :=
  match r with
  | Ret _ w => w
  | Exn _ w => w
  | Blocked w => w
  end.

(** Entropy given by its first values; zero afterwards. *)
Definition entropy_of (l : list Z) : nat -> Z := fun n => nth n l 0.


(** ** class Buzzer and the hint players *)

Module Buzzer.
(** What the buzzer task does, as seen from outside: PWM frequency and
    duty writes, and sleeps. *)
Inductive io : Set :=
| freq (hz : Z)
| duty (value : Z)
| sleep (seconds : Q).

(** [__init__] *)
Definition init : list io := [freq 0; duty 16000].

(** [play(time, freq)] *)
Definition play (time : Q) (hz : Z) : list io := [freq hz; sleep time; freq 0].

(** The frequency a trace leaves the PWM at, from frequency [f0]. *)
Fixpoint sounding (f0 : Z) (tr : list io) : Z :=
  match tr with
  | [] => f0
  | freq hz :: rest => sounding hz rest
  | _ :: rest => sounding f0 rest
  end.

(** The tones of a trace: each nonzero frequency with the sleep that
    follows it. *)
Fixpoint tones (tr : list io) : list (Z * Q) :=
  match tr with
  | [] => []
  | freq hz :: rest =>
      match rest with
      | sleep t :: _ => if hz =? 0 then tones rest else (hz, t) :: tones rest
      | _ => tones rest
      end
  | _ :: rest => tones rest
  end.

(** The trace up to a [CancelledError] delivered at suspension number
    [k] (from 0): that sleep has begun, nothing after it runs. *)
Fixpoint cancel_at (k : nat) (tr : list io) : list io :=
  match tr with
  | [] => []
  | sleep t :: rest =>
      match k with
      | O => [sleep t]
      | S k' => sleep t :: cancel_at k' rest
      end
  | e :: rest => e :: cancel_at k rest
  end.

(** The number of suspension points of a trace. *)
Fixpoint sleeps (tr : list io) : nat :=
  match tr with
  | [] => O
  | sleep _ :: rest => S (sleeps rest)
  | _ :: rest => sleeps rest
  end.
End Buzzer.

(** One pass through the body of [while True] in [play_morse]. *)
Definition play_morse_symbol (i : Z) : list Buzzer.io :=
  (if i =? 0
   then [Buzzer.sleep 0.25] ++ Buzzer.play 0.25 548 ++ [Buzzer.sleep 0.25]
   else Buzzer.play 1 548)
  ++ [Buzzer.sleep 0.1].

Definition play_morse_cycle (tape : list Z) : list Buzzer.io :=
  flat_map play_morse_symbol tape ++ [Buzzer.sleep 1.5].

(** One pass through the body of [while True] in [play_pitch]. *)
Definition play_pitch_symbol (i : Z) : list Buzzer.io :=
  (if i =? 0 then Buzzer.play 0.5 368 else Buzzer.play 0.5 762)
  ++ [Buzzer.sleep 0.1].

Definition play_pitch_cycle (tape : list Z) : list Buzzer.io :=
  flat_map play_pitch_symbol tape ++ [Buzzer.sleep 1.5].

(** ** [main] up to its loop *)

(** The statements of [main] before [while True].  The result is the
    pair chosen by the draw: the segments written to the display and the
    button that starts the game. *)
Definition main_setup : M (list Z * button) :=
  set_all_buttons_with transfer_to_lose ;;
  position_for_start <- randint 0 3 ;;
  tb <- index (getitem [([99; 0; 0; 0], up_left_button);
                        ([0; 0; 0; 99], up_right_button);
                        ([92; 0; 0; 0], down_left_button);
                        ([0; 0; 0; 92], down_right_button)]
                       position_for_start) ;;
  set_on_pressed (snd tb) transfer_to_game ;;
  ret tb.

(** ** Vocabulary of the properties *)

(** [n; n-1; ...; 0] *)
Fixpoint countdown (n : nat) : list Z :=
  match n with
  | O => [0]
  | S k => Z.of_nat n :: countdown k
  end.

(** The minute:second pair that shows a duration. *)
Definition clock_face (d : Z) : Z * Z := (d / 60, d mod 60).

(** Each pair stands for exactly one second less than the one before. *)
Fixpoint one_second_steps (l : list (Z * Z)) : Prop :=
  match l with
  | a :: (b :: _) as rest =>
      DigitalDisplay.duration (fst b) (snd b)
      = DigitalDisplay.duration (fst a) (snd a) - 1
      /\ one_second_steps rest
  | _ => True
  end.

(** The display as [game] arms it: callback, time, [start]. *)
Definition armed (S : Z) (cb : callback) : DigitalDisplay.t :=
  fst (DigitalDisplay.start
         (DigitalDisplay.set_time S 0
            (DigitalDisplay.set_timeup_callback cb DigitalDisplay.new)) []).

(** The trace of a countdown whose first render shows [n] seconds: one
    render and one sleep per second down to 0:00, then the callback. *)
Definition running_trace (n : nat) (cb : callback) : list DigitalDisplay.io :=
  flat_map (fun d => [DigitalDisplay.numbers (fst (clock_face d)) (snd (clock_face d));
                      DigitalDisplay.sleep 1])
           (countdown n)
  ++ [DigitalDisplay.timeup cb].

(** The display after its loop has run down and stopped itself. *)
Definition run_down (self : DigitalDisplay.t) : DigitalDisplay.t :=
  DigitalDisplay.with_base
    {| AsyncLooping.loop_runing := false;
       AsyncLooping.loop_task := AsyncLooping.loop_task (DigitalDisplay.base self) |}
    (DigitalDisplay.with_time 0 0 self).

(** The trace of [n] paused passes that start with visibility [show]. *)
Fixpoint blinking (n : nat) (show : bool) (m s : Z) : list DigitalDisplay.io :=
  match n with
  | O => []
  | S k =>
      DigitalDisplay.sleep 0.5
      :: (if negb show then DigitalDisplay.numbers m s
          else DigitalDisplay.write [0; 0; 0; 0])
      :: blinking k (negb show) m s
  end.

Definition is_display_loop (c : coroutine) : bool :=
  match c with
  | DigitalDisplay_loop => true
  | _ => false
  end.

(** A button seen pressed by its polling loop at [t0] and released
    [hold] seconds later, each during one suspension of the protocol. *)
Definition tap (b : button) (t0 hold : Q) : list (list activity) :=
  [[at_time t0 (button_polls b 0)];
   [at_time (t0 + hold)%Q (button_polls b 1)]].

(** A long-code round of [morse] with code 0,0,0,1 in which every button
    in turn is held for 0.2 s: right for the first three symbols, too
    short for the fourth. *)
Definition last_symbol_miss : world :=
  boot (entropy_of [1; 0; 0; 0; 1; 3])
       (tap up_left_button 1 0.2 ++ tap down_right_button 2 0.2
        ++ tap up_right_button 3 0.2 ++ tap down_left_button 4 0.2).

(** A low-high round of [pitch] on the up-right button in which the
    first thing seen is a press of the down-left button. *)
Definition wrong_button_first : world :=
  boot (entropy_of [0; 1; 1; 1])
       [[at_time 1 (button_polls down_left_button 0)]].

(** A low-high round of [pitch] that requires a long hold of the
    up-right button, which is pressed at 1 s and released at [released]. *)
Definition long_hold_round (released : Q) : world :=
  boot (entropy_of [0; 1; 1; 1])
       [[at_time 1 (button_polls up_right_button 0)];
        [at_time released (button_polls up_right_button 1)]].

(** A short-code round of [morse] with code 0,1,0,0. *)
Definition short_code_round : world :=
  boot (entropy_of [0; 0; 1; 0; 0; 1]) [].

(** The button that [pitch] selects in its low-high mode. *)
Definition pitch_button (up right : Z) : option button :=
  match getitem [[down_left_button; down_right_button];
                 [up_left_button; up_right_button]] up with
  | Some row => getitem row right
  | None => None
  end.

(** A running pass of the display loop during whose one-second sleep
    another task calls [pause()]: the pass up to its sleep, [pause()],
    the pass after its sleep. *)
Definition pass_paused_in_sleep (self : DigitalDisplay.t)
  : list DigitalDisplay.io * DigitalDisplay.t :=
  let (o1, self1) := DigitalDisplay.tick self in
  let (o2, self2) := DigitalDisplay.expire (DigitalDisplay.pause self1) in
  (o1 ++ o2, self2).

(** [transfer = await transfer_queue.get()] in the loop of [main], when
    an item is waiting. *)
Definition main_get (w : world) : option (transfer * world) :=
  match SimpleQueue.get (transfer_queue w) with
  | Some (x, q) => Some (x, set_transfer_queue q w)
  | None => None
  end.

(** The program from its start to the moment [main] awaits a challenge:
    the module-level statements, [main] up to its loop, the start button
    seen pressed at 1 s and held from then on, [game()] taken from the
    queue and awaited, the challenge it queued taken from the queue.
    The result is the start button, the challenge and the world in which
    the challenge begins; [None] if the run does not get that far. *)
Definition challenge_through_main (raw : nat -> Z) (schedule : list (list activity))
  : option (button * transfer * world) :=
  match main_setup (boot raw schedule) with
  | Ret (_, b) w1 =>
      match main_get (run_activity (at_time 1 (button_polls b 0)) w1) with
      | Some (Game, w2) =>
          match game 180 w2 with
          | Ret _ w3 =>
              match main_get w3 with
              | Some (c, w4) => Some (b, c, w4)
              | None => None
              end
          | _ => None
          end
      | _ => None
      end
  | _ => None
  end.

(** A long-code round of [morse] with code 0,0,0,1 reached through
    [main] with the up-right button as start button, still held: the
    up-left button is tapped for the first symbol, then the down-left
    button is pressed although it is the turn of down-right. *)
Definition held_start_wrong_press : world :=
  match challenge_through_main
          (entropy_of [1; 1; 1; 0; 0; 0; 1; 3])
          (tap up_left_button 2 0.2 ++ [[at_time 3 (button_polls down_left_button 0)]])
  with
  | Some (_, _, w) => w
  | None => boot (entropy_of []) []
  end.

(** Each element is the opposite of the one before it, the first the
    opposite of [before]. *)
Fixpoint alternates (before : bool) (l : list bool) : Prop :=
  match l with
  | [] => True
  | e :: rest => e = negb before /\ alternates e rest
  end.

(** The callback a button awaits on an edge, if it has one. *)
Definition callback_on (self : Button.t) (e : bool) : list callback :=
  match (if e then Button.on_pressed self else Button.on_released self) with
  | Some c => [c]
  | None => []
  end.

(** The trace of a countdown whose callback may be missing. *)
Definition countdown_trace (n : nat) (cb : option callback) : list DigitalDisplay.io :=
  flat_map (fun d => [DigitalDisplay.numbers (fst (clock_face d)) (snd (clock_face d));
                      DigitalDisplay.sleep 1])
           (countdown n)
  ++ match cb with
     | Some c => [DigitalDisplay.timeup c]
     | None => []
     end.

(** The number of [Put] and of served [Get] calls of a schedule. *)
Definition put_count {A : Type} (calls : list (SimpleQueue.call A)) : Z :=
  Z.of_nat (List.length (SimpleQueue.puts calls)).

(** A press of [b] seen at [fst hold] and its release at [snd hold]. *)
Definition press_release (b : button) (hold : Q * Q) : list (list activity) :=
  [[at_time (fst hold) (button_polls b 0)];
   [at_time (snd hold) (button_polls b 1)]].

(** The schedule in which the button of each round is pressed and
    released in turn. *)
Fixpoint round_presses (pairs : list (Z * button)) (holds : list (Q * Q))
  : list (list activity) :=
  match pairs, holds with
  | (_, b) :: ps, h :: hs => press_release b h ++ round_presses ps hs
  | _, _ => []
  end.

(** The hold has the length class the symbol asks for. *)
Definition hold_agrees (long : Z) (hold : Q * Q) : bool :=
  Z.lxor long (Z.b2z (Qgt_bool (Qabs (snd hold - fst hold)) 0.5)) =? 0.

Fixpoint holds_agree (pairs : list (Z * button)) (holds : list (Q * Q)) : bool :=
  match pairs, holds with
  | (long, _) :: ps, h :: hs => hold_agrees long h && holds_agree ps hs
  | [], _ => true
  | _ :: _, [] => false
  end.

(** How the rounds end when each button is pressed and released in
    turn: the way the loop is left and what has been queued by then. *)
Fixpoint rounds_end (pairs : list (Z * button)) (holds : list (Q * Q))
  : control * list transfer :=
  match pairs, holds with
  | (long, _) :: ps, h :: hs =>
      if hold_agrees long h then rounds_end ps hs
      else match ps with
           | [] => (Continue, [Game_over])
           | _ :: _ => (Returned, [Game_over])
           end
  | _, _ => (Continue, [])
  end.

(** * Properties *)

(** ** SimpleQueue *)

Section QueueFacts.
Context {A : Type}.
Implicit Types (q : SimpleQueue.t A) (x : A).

Lemma empty_iff_nil q :
  SimpleQueue.empty q = true <-> SimpleQueue._queue q = [].
Proof.
  unfold SimpleQueue.empty. destruct (SimpleQueue._queue q); simpl; split;
    intros H; try reflexivity; try discriminate.
Qed.

Lemma get_head q x rest :
  SimpleQueue._queue q = x :: rest ->
  exists q1, SimpleQueue.get q = Some (x, q1) /\ SimpleQueue._queue q1 = rest.
Proof.
  intros H. unfold SimpleQueue.get, SimpleQueue.empty. rewrite H.
  cbn [List.length]. rewrite Nat2Z.inj_succ.
  destruct (Z.eqb_spec (Z.succ (Z.of_nat (List.length rest))) 0) as [E|_]; [lia|].
  eexists. split; [reflexivity|].
  cbn [SimpleQueue._queue]. destruct (Z.of_nat (List.length rest) =? 0); reflexivity.
Qed.

Lemma get_waits q :
  SimpleQueue._queue q = [] -> SimpleQueue.get q = None.
Proof.
  intros H. unfold SimpleQueue.get.
  rewrite (proj2 (empty_iff_nil q) H). reflexivity.
Qed.

Lemma get_some q x q1 :
  SimpleQueue.get q = Some (x, q1) ->
  SimpleQueue._queue q = x :: SimpleQueue._queue q1.
Proof.
  destruct (SimpleQueue._queue q) as [|y rest] eqn:E.
  - rewrite (get_waits q E). discriminate.
  - destruct (get_head q y rest E) as (q2 & Hg & Hq). rewrite Hg.
    intros [= <- <-]. now rewrite Hq.
Qed.

Lemma run_delivers_in_order (calls : list (SimpleQueue.call A)) :
  forall q,
    fst (SimpleQueue.run calls q) ++ SimpleQueue._queue (snd (SimpleQueue.run calls q))
    = SimpleQueue._queue q ++ SimpleQueue.puts calls.
Proof.
  induction calls as [|[x|] calls IH]; intros q; cbn [SimpleQueue.run SimpleQueue.puts].
  - cbn. now rewrite app_nil_r.
  - rewrite IH. cbn [SimpleQueue.put SimpleQueue._queue].
    now rewrite <- app_assoc.
  - destruct (SimpleQueue.get q) as [[x q1]|] eqn:Hg.
    + specialize (IH q1). destruct (SimpleQueue.run calls q1) as [out q2].
      cbn [fst snd] in *. rewrite (get_some _ _ _ Hg).
      cbn [app]. now rewrite IH.
    + apply IH.
Qed.
End QueueFacts.

(** C3.  The queue is first-in first-out and delivers each item once.
    After [put(a)], [put(b)], [put(c)] on a new queue three [get]s
    return [a], [b], [c] in that order and leave the queue empty with its
    event cleared, so that a fourth [get] has to wait.  More generally,
    for any schedule of [put] and [get] calls on any queue, the items
    delivered so far followed by the items still queued are exactly the
    items that were queued at the start followed by the items put, in
    the order of the puts: nothing is lost, reordered or delivered
    twice. *)
Theorem simple_queue_fifo (A : Type) :
  (forall a b c : A,
      exists q1 q2,
        SimpleQueue.get
          (SimpleQueue.put c (SimpleQueue.put b (SimpleQueue.put a SimpleQueue.new)))
        = Some (a, q1)
        /\ SimpleQueue.get q1 = Some (b, q2)
        /\ SimpleQueue.get q2 = Some (c, SimpleQueue.new)
        /\ SimpleQueue.get (A := A) SimpleQueue.new = None)
  /\ (forall (calls : list (SimpleQueue.call A)) (q : SimpleQueue.t A),
         fst (SimpleQueue.run calls q)
           ++ SimpleQueue._queue (snd (SimpleQueue.run calls q))
         = SimpleQueue._queue q ++ SimpleQueue.puts calls).
Proof.
  split.
  - intros a b c. do 2 eexists. repeat split; reflexivity.
  - intros calls q. apply run_delivers_in_order.
Qed.

(** ** AsyncLooping *)

Lemma outstanding_app {C : Type} (same : C -> bool) (el1 el2 : EventLoop.t C) :
  EventLoop.outstanding same (el1 ++ el2)
  = (EventLoop.outstanding same el1 + EventLoop.outstanding same el2)%nat.
Proof.
  unfold EventLoop.outstanding. now rewrite filter_app, length_app.
Qed.

(** C8, the claim as stated fails: two [start] calls in a row on a new
    display are both carried out and leave two outstanding loop
    activities of that one instance. *)
Lemma start_twice_not_guarded :
  ~ (EventLoop.outstanding is_display_loop
       (snd (AsyncLooping.start DigitalDisplay_loop
               (fst (AsyncLooping.start DigitalDisplay_loop AsyncLooping.new []))
               (snd (AsyncLooping.start DigitalDisplay_loop AsyncLooping.new []))))
     <= 1)%nat.
Proof.
  cbn. lia.
Qed.

(** C8, amended.  [start] has no guard: for every instance and every
    event loop, a second [start] without a [stop] in between succeeds
    like the first.  Together they add two pending activities running the
    instance's loop; the handle keeps only the second, the first stays
    pending under its old handle, and a following [stop] clears the flag
    and awaits the second. *)
Theorem start_twice_leaks_first
  (C : Type) (same : C -> bool) (c : C)
  (self : AsyncLooping.t) (el : EventLoop.t C) :
  same c = true ->
  let first := AsyncLooping.start c self el in
  let second := AsyncLooping.start c (fst first) (snd first) in
  AsyncLooping.loop_runing (fst second) = true
  /\ AsyncLooping.loop_task (fst first) = Some (List.length el)
  /\ AsyncLooping.loop_task (fst second) = Some (S (List.length el))
  /\ snd second
     = el ++ [EventLoop.mk_task c EventLoop.Pending;
              EventLoop.mk_task c EventLoop.Pending]
  /\ EventLoop.outstanding same (snd second)
     = (EventLoop.outstanding same el + 2)%nat
  /\ AsyncLooping.stop (fst second) (snd second)
     = ({| AsyncLooping.loop_runing := false;
           AsyncLooping.loop_task := Some (S (List.length el)) |},
        EventLoop.Suspends).
Proof.
  intros Hsame. cbn zeta. unfold AsyncLooping.start, EventLoop.create_task.
  cbn [fst snd AsyncLooping.loop_runing AsyncLooping.loop_task].
  rewrite length_app, <- app_assoc. cbn [List.length app].
  replace (List.length el + 1)%nat with (S (List.length el)) by lia.
  repeat split.
  - rewrite outstanding_app. f_equal.
    unfold EventLoop.outstanding. cbn. rewrite Hsame. reflexivity.
  - unfold AsyncLooping.stop, EventLoop.await_task.
    cbn [AsyncLooping.loop_task].
    rewrite nth_error_app2 by lia.
    replace (S (List.length el) - List.length el)%nat with 1%nat by lia.
    reflexivity.
Qed.

Lemma start_twice_leaks_first_witness :
  is_display_loop DigitalDisplay_loop = true
  /\ EventLoop.outstanding is_display_loop
       (snd (AsyncLooping.start DigitalDisplay_loop
               (fst (AsyncLooping.start DigitalDisplay_loop AsyncLooping.new []))
               (snd (AsyncLooping.start DigitalDisplay_loop AsyncLooping.new []))))
     = 2%nat.
Proof.
  split; [reflexivity|].
  exact (proj1 (proj2 (proj2 (proj2 (proj2
    (start_twice_leaks_first coroutine is_display_loop DigitalDisplay_loop
       AsyncLooping.new [] eq_refl)))))).
Defined.

(** C10, the claim as stated fails, in two ways.  A [Button] that was
    never started has no [loop_task] attribute, because its [__init__]
    does not run that of [AsyncLooping]: [stop] clears the flag and then
    raises [AttributeError].  And [stop] after [start] re-raises what the
    loop task raised: on the base class, whose [loop] raises
    [NotImplementedError], [start] followed by [stop] fails with it. *)
Lemma stop_can_fail :
  Button.stop Button.new []
  = (Button.with_base (Button.loop_runing_only false) Button.new,
     EventLoop.Raises AttributeError)
  /\ (let started := AsyncLooping.start tt AsyncLooping.new [] in
      snd (AsyncLooping.stop (fst started)
             (EventLoop.finish 0 AsyncLooping.loop (snd started)))
      = EventLoop.Raises NotImplementedError).
Proof.
  split; reflexivity.
Qed.

(** C10, amended.  On an instance for which [AsyncLooping.__init__] has
    run (the base class, the display), [stop] with the handle absent
    returns without awaiting anything: the flag is cleared, the handle
    stays absent and the fields a [DigitalDisplay] adds are as they
    were.  With a handle present, as on any instance after [start] (a
    button included, whatever state it was in), [stop] clears the flag,
    keeps the handle and ends as the awaited loop task ended: it returns
    if the task returned, waits while it is pending, and raises exactly
    what the task raised; so [stop] fails if and only if its loop task
    has failed. *)
Theorem stop_ends_as_its_loop_task
  (C : Type) (self : AsyncLooping.t) (el : EventLoop.t C) :
  (AsyncLooping.loop_task self = None ->
   AsyncLooping.stop self el
   = ({| AsyncLooping.loop_runing := false; AsyncLooping.loop_task := None |},
      EventLoop.Returns))
  /\ (forall (d : DigitalDisplay.t) (tasks : EventLoop.t coroutine),
         AsyncLooping.loop_task (DigitalDisplay.base d) = None ->
         DigitalDisplay.stop d tasks
         = (DigitalDisplay.with_base
              {| AsyncLooping.loop_runing := false; AsyncLooping.loop_task := None |} d,
            EventLoop.Returns))
  /\ (forall (me : button) (b : Button.t) (tasks : EventLoop.t coroutine),
         let started := Button.start me b tasks in
         Button.stop (fst started) (snd started)
         = (Button.with_base
              (Button.assigned
                 {| AsyncLooping.loop_runing := false;
                    AsyncLooping.loop_task := Some (List.length tasks) |})
              b,
            EventLoop.Suspends))
  /\ fst (AsyncLooping.stop self el)
     = {| AsyncLooping.loop_runing := false;
          AsyncLooping.loop_task := AsyncLooping.loop_task self |}
  /\ (forall (h : nat) (c : C) (st : EventLoop.task_state),
         AsyncLooping.loop_task self = Some h ->
         nth_error el h = Some (EventLoop.mk_task c st) ->
         snd (AsyncLooping.stop self el)
         = match st with
           | EventLoop.Done => EventLoop.Returns
           | EventLoop.Raised e => EventLoop.Raises e
           | EventLoop.Pending => EventLoop.Suspends
           end)
  /\ (forall e : exn,
         snd (AsyncLooping.stop self el) = EventLoop.Raises e
         <-> exists h c,
               AsyncLooping.loop_task self = Some h
               /\ nth_error el h = Some (EventLoop.mk_task c (EventLoop.Raised e))).
Proof.
  split; [|split; [|split; [|split; [|split]]]].
  - intros H. unfold AsyncLooping.stop. cbn. now rewrite H.
  - intros d tasks H. unfold DigitalDisplay.stop, AsyncLooping.stop. cbn.
    now rewrite H.
  - intros me b tasks. cbn.
    unfold Button.stop, AsyncLooping.stop, EventLoop.await_task. cbn.
    rewrite nth_error_app2 by lia. rewrite Nat.sub_diag. reflexivity.
  - unfold AsyncLooping.stop. cbn.
    destruct (AsyncLooping.loop_task self); reflexivity.
  - intros h c st Hh Hn. unfold AsyncLooping.stop, EventLoop.await_task. cbn.
    rewrite Hh. cbn. rewrite Hn. destruct st; reflexivity.
  - intros e. unfold AsyncLooping.stop, EventLoop.await_task. cbn. split.
    + destruct (AsyncLooping.loop_task self) as [h|] eqn:Hh; cbn; [|discriminate].
      destruct (nth_error el h) as [[c [| |e']]|] eqn:Hn; try discriminate.
      intros [= ->]. exists h, c. split; [reflexivity|exact Hn].
    + intros (h & c & Hh & Hn). rewrite Hh. cbn. rewrite Hn. reflexivity.
Qed.

Lemma stop_ends_as_its_loop_task_witness :
  AsyncLooping.stop (C := coroutine) AsyncLooping.new []
  = ({| AsyncLooping.loop_runing := false; AsyncLooping.loop_task := None |},
     EventLoop.Returns)
  /\ (let started := AsyncLooping.start DigitalDisplay_loop AsyncLooping.new [] in
      snd (AsyncLooping.stop (fst started) (snd started)) = EventLoop.Suspends
      /\ snd (AsyncLooping.stop (fst started)
                (EventLoop.finish 0 EventLoop.Done (snd started)))
         = EventLoop.Returns).
Proof.
  split; [|split].
  - exact (proj1 (stop_ends_as_its_loop_task coroutine AsyncLooping.new []) eq_refl).
  - exact (proj1 (proj2 (proj2 (proj2 (proj2
      (stop_ends_as_its_loop_task coroutine
         (fst (AsyncLooping.start DigitalDisplay_loop AsyncLooping.new []))
         (snd (AsyncLooping.start DigitalDisplay_loop AsyncLooping.new []))))))) 
      O DigitalDisplay_loop EventLoop.Pending eq_refl eq_refl).
  - exact (proj1 (proj2 (proj2 (proj2 (proj2
      (stop_ends_as_its_loop_task coroutine
         (fst (AsyncLooping.start DigitalDisplay_loop AsyncLooping.new []))
         (EventLoop.finish 0 EventLoop.Done
            (snd (AsyncLooping.start DigitalDisplay_loop AsyncLooping.new [])))))))) 
      O DigitalDisplay_loop EventLoop.Done eq_refl eq_refl).
Defined.

(** ** The random draws *)

Lemma randint_of_range (a b raw : Z) : a <= b -> a <= randint_of a b raw <= b.
Proof.
  intros H. unfold randint_of. pose proof (Z.mod_pos_bound raw (b - a + 1)). lia.
Qed.

Lemma randint_of_onto (a b v : Z) : a <= v <= b -> randint_of a b (v - a) = v.
Proof.
  intros H. unfold randint_of. rewrite Z.mod_small; lia.
Qed.

Lemma bit_cases (raw : Z) : raw mod 2 = 0 \/ raw mod 2 = 1.
Proof. pose proof (Z.mod_pos_bound raw 2). lia. Qed.

Lemma quad_cases (raw : Z) :
  raw mod 4 = 0 \/ raw mod 4 = 1 \/ raw mod 4 = 2 \/ raw mod 4 = 3.
Proof. pose proof (Z.mod_pos_bound raw 4). lia. Qed.

Lemma draw_code_spec (w : world) :
  exists code,
    draw_code w = Ret code (set_drawn (5 + drawn w) w)
    /\ List.length code = 4%nat
    /\ Forall (fun c => c = 0 \/ c = 1) code
    /\ In 1 code
    /\ 0 <= sum code - 1 <= 3.
Proof.
  unfold draw_code. cbn.
  destruct (bit_cases (entropy w (drawn w))) as [-> | ->],
           (bit_cases (entropy w (S (drawn w)))) as [-> | ->],
           (bit_cases (entropy w (S (S (drawn w))))) as [-> | ->],
           (bit_cases (entropy w (S (S (S (drawn w)))))) as [-> | ->],
           (quad_cases (entropy w (S (S (S (S (drawn w))))))) as [-> | [-> | [-> | ->]]].
  all: cbn; eexists;
    (split; [reflexivity|]);
    (split; [reflexivity|]);
    (split; [repeat (apply Forall_cons; [lia|]); apply Forall_nil|]);
    (split; [cbn; lia|]);
    cbn; lia.
Qed.

Lemma getitem_morse_buttons (count : Z) :
  0 <= count <= 3 ->
  exists b,
    getitem morse_buttons count = Some b
    /\ nth_error morse_buttons (Z.to_nat (count mod 4)) = Some b.
Proof.
  intros H.
  assert (Hc : count = 0 \/ count = 1 \/ count = 2 \/ count = 3) by lia.
  destruct Hc as [-> | [-> | [-> | ->]]]; eexists; split; reflexivity.
Qed.

(** C9.  Whatever the random draws, the code that [morse] generates
    has four symbols, each 0 or 1, at least one of them 1; hence
    [sum(code) - 1] lies in 0..3 and indexing the four-button list with
    it finds a button (no [IndexError], no wrap to a negative index). *)
Theorem morse_code_has_a_one (w : world) :
  exists code w',
    draw_code w = Ret code w'
    /\ drawn w' = (5 + drawn w)%nat
    /\ List.length code = 4%nat
    /\ Forall (fun c => c = 0 \/ c = 1) code
    /\ In 1 code
    /\ 0 <= sum code - 1 <= 3
    /\ exists b, getitem morse_buttons (sum code - 1) = Some b.
Proof.
  destruct (draw_code_spec w) as (code & Hd & Hl & Hb & Hi & Hc).
  exists code, (set_drawn (5 + drawn w) w).
  repeat split; try assumption; try lia.
  destruct (getitem_morse_buttons _ Hc) as (b & Hg & _). now exists b.
Qed.

(** ** DigitalDisplay *)

Section DisplayFacts.
Import DigitalDisplay.

Lemma loop_stopped (fuel : nat) (d : t) :
  loop_runing d = false -> loop fuel d = ([], d).
Proof.
  intros H. destruct fuel; cbn [loop]; [reflexivity|]. now rewrite H.
Qed.

Lemma loop_step (fuel : nat) (d : t) :
  loop_runing d = true ->
  loop (S fuel) d
  = (fst (loop_body d) ++ fst (loop fuel (snd (loop_body d))),
     snd (loop fuel (snd (loop_body d)))).
Proof.
  intros H. cbn [loop]. rewrite H.
  destruct (loop_body d) as [o1 d1]. cbn [fst snd].
  destruct (loop fuel d1) as [o2 d2]. reflexivity.
Qed.

Lemma clock_face_unique (m s : Z) :
  0 <= s <= 59 -> clock_face (duration m s) = (m, s).
Proof.
  intros H. unfold clock_face, duration. f_equal.
  - symmetry. apply (Z.div_unique_pos _ 60 m s); lia.
  - symmetry. apply (Z.mod_unique_pos _ 60 m s); lia.
Qed.

Lemma tick_face (d : t) :
  0 <= second d <= 59 ->
  exists m s,
    0 <= m /\ 0 <= s <= 59
    /\ (0 <= minute d -> 1 <= duration (minute d) (second d) ->
        duration m s = duration (minute d) (second d) - 1)
    /\ tick d = ([numbers m s; sleep 1], with_time m s d).
Proof.
  intros Hs. unfold tick, duration.
  destruct (Z.ltb_spec (second d - 1) 0) as [H1|H1].
  - destruct (Z.ltb_spec (minute d - 1) 0) as [H2|H2].
    + exists 0, 59. repeat split; lia.
    + exists (minute d - 1), 59. repeat split; lia.
  - destruct (Z.ltb_spec (minute d) 0) as [H2|H2].
    + exists 0, (second d - 1). repeat split; lia.
    + exists (minute d), (second d - 1). repeat split; lia.
Qed.

(** One running pass, from any minute and a second in range: what is
    rendered is a proper clock face, one second below the old one when
    that was a positive duration, and the loop stops exactly at 0:00. *)
Lemma running_pass (d : t) (cb : callback) :
  is_pause d = false ->
  timeup_callback d = Some cb ->
  0 <= second d <= 59 ->
  exists m s,
    0 <= m /\ 0 <= s <= 59
    /\ (0 <= minute d -> 1 <= duration (minute d) (second d) ->
        duration m s = duration (minute d) (second d) - 1)
    /\ loop_body d
       = ([numbers m s; sleep 1]
            ++ (if duration m s =? 0 then [timeup cb] else []),
          if duration m s =? 0 then run_down d else with_time m s d).
Proof.
  intros Hp Hcb Hs.
  destruct (tick_face d Hs) as (m1 & s1 & Hm1 & Hs1 & Hdur & Ht).
  exists m1, s1. repeat split; try lia; try assumption.
  unfold loop_body. rewrite Hp, Ht.
  unfold expire. cbn [second minute with_time timeup_callback].
  unfold duration.
  destruct (Z.eqb_spec s1 0) as [E1|E1];
    destruct (Z.eqb_spec m1 0) as [E2|E2]; cbn [andb];
    destruct (Z.eqb_spec (60 * m1 + s1) 0) as [E|E]; try lia; try reflexivity.
  unfold run_down, with_base, with_time. cbn. rewrite Hcb, E1, E2. reflexivity.
Qed.

Lemma running_trace_succ (k : nat) (cb : callback) (m s : Z) :
  0 <= s <= 59 -> duration m s = Z.of_nat (S k) ->
  [numbers m s; sleep 1] ++ running_trace k cb = running_trace (S k) cb.
Proof.
  intros Hs Hd. unfold running_trace. cbn [countdown flat_map].
  rewrite <- Hd, (clock_face_unique m s Hs). reflexivity.
Qed.

Lemma runs_down_from (cb : callback) (n : nat) :
  forall d : t,
    loop_runing d = true -> is_pause d = false -> timeup_callback d = Some cb ->
    0 <= minute d -> 0 <= second d <= 59 ->
    duration (minute d) (second d) = Z.of_nat n + 1 ->
    forall extra : nat,
      loop (S n + extra) d = (running_trace n cb, run_down d).
Proof.
  induction n as [|k IH]; intros d Hr Hp Hcb Hm Hs Hd extra.
  - destruct (running_pass d cb Hp Hcb Hs) as (m & s & Hm1 & Hs1 & Hdur & Hb).
    specialize (Hdur Hm ltac:(lia)).
    assert (E : duration m s = 0) by lia.
    rewrite E in Hb. cbn [Z.eqb] in Hb.
    cbn [plus]. rewrite (loop_step _ _ Hr), Hb. cbn [fst snd].
    rewrite loop_stopped by reflexivity. cbn [fst snd].
    unfold duration in E. assert (m = 0) by lia. assert (s = 0) by lia. subst m s.
    reflexivity.
  - destruct (running_pass d cb Hp Hcb Hs) as (m & s & Hm1 & Hs1 & Hdur & Hb).
    specialize (Hdur Hm ltac:(lia)).
    assert (E : duration m s = Z.of_nat (S k)) by lia.
    destruct (Z.eqb_spec (duration m s) 0) as [E0|_]; [lia|].
    change (S (S k) + extra)%nat with (S (S k + extra)).
    rewrite (loop_step _ _ Hr), Hb. cbn [fst snd].
    rewrite (IH (with_time m s d)); cbn [fst snd]; try assumption; try (cbn; lia).
    rewrite app_nil_r. rewrite <- (running_trace_succ k cb m s Hs1 E).
    reflexivity.
Qed.

Lemma runs_down_any (cb : callback) (d : t) :
  loop_runing d = true -> is_pause d = false -> timeup_callback d = Some cb ->
  0 <= second d <= 59 ->
  exists n : nat,
    (0 <= minute d -> 1 <= duration (minute d) (second d) ->
     Z.of_nat n = duration (minute d) (second d) - 1)
    /\ forall extra : nat,
        loop (S n + extra) d = (running_trace n cb, run_down d).
Proof.
  intros Hr Hp Hcb Hs.
  destruct (running_pass d cb Hp Hcb Hs) as (m & s & Hm1 & Hs1 & Hdur & Hb).
  assert (Hnn : 0 <= duration m s) by (unfold duration; lia).
  exists (Z.to_nat (duration m s)). split; [intros H1 H2; specialize (Hdur H1 H2); lia|].
  intros extra.
  destruct (Z.to_nat (duration m s)) as [|k] eqn:En.
  - assert (E : duration m s = 0) by lia.
    rewrite E in Hb. cbn [Z.eqb] in Hb.
    cbn [plus]. rewrite (loop_step _ _ Hr), Hb. cbn [fst snd].
    rewrite loop_stopped by reflexivity. cbn [fst snd].
    unfold duration in E. assert (m = 0) by lia. assert (s = 0) by lia. subst m s.
    reflexivity.
  - assert (E : duration m s = Z.of_nat (S k)) by lia.
    destruct (Z.eqb_spec (duration m s) 0) as [E0|_]; [lia|].
    change (S (S k) + extra)%nat with (S (S k + extra)).
    rewrite (loop_step _ _ Hr), Hb. cbn [fst snd].
    rewrite (runs_down_from cb k (with_time m s d));
      cbn [fst snd]; try assumption; try (cbn; lia).
    rewrite app_nil_r. rewrite <- (running_trace_succ k cb m s Hs1 E).
    reflexivity.
Qed.

Lemma renders_running_trace (n : nat) (cb : callback) :
  renders (running_trace n cb) = map clock_face (countdown n).
Proof.
  unfold running_trace.
  induction (countdown n) as [|d l IH]; cbn [flat_map app renders map];
    [reflexivity|].
  rewrite IH. now destruct (clock_face d).
Qed.

Lemma timeups_running_trace (n : nat) (cb : callback) :
  timeups (running_trace n cb) = 1%nat.
Proof.
  unfold running_trace. induction (countdown n) as [|d l IH]; cbn; auto.
Qed.

Lemma last_running_trace (n : nat) (cb : callback) :
  last (running_trace n cb) (sleep 0) = timeup cb.
Proof.
  unfold running_trace. apply last_last.
Qed.

Lemma duration_clock_face (d : Z) :
  duration (fst (clock_face d)) (snd (clock_face d)) = d.
Proof.
  unfold duration, clock_face. cbn [fst snd].
  pose proof (Z.div_mod d 60). lia.
Qed.

Lemma countdown_head (n : nat) :
  exists rest, countdown n = Z.of_nat n :: rest.
Proof.
  destruct n; cbn [countdown]; eexists; reflexivity.
Qed.

Lemma countdown_steps (n : nat) :
  one_second_steps (map clock_face (countdown n)).
Proof.
  induction n as [|k IH]; [exact I|].
  cbn [countdown]. destruct (countdown_head k) as [rest Hk].
  rewrite Hk in *. cbn [map one_second_steps] in *. split; [|exact IH].
  rewrite !duration_clock_face. lia.
Qed.

Lemma countdown_nonneg (n : nat) :
  Forall (fun p => 0 <= fst p /\ 0 <= snd p) (map clock_face (countdown n)).
Proof.
  assert (H : forall d, 0 <= d -> 0 <= fst (clock_face d) /\ 0 <= snd (clock_face d)).
  { intros d Hd. unfold clock_face. cbn [fst snd]. split.
    - apply Z.div_pos; lia.
    - pose proof (Z.mod_pos_bound d 60). lia. }
  induction n as [|k IH]; cbn [countdown map].
  - constructor; [apply H; lia|constructor].
  - constructor; [apply H; lia|exact IH].
Qed.

Lemma countdown_last (n : nat) :
  last (map clock_face (countdown n)) (0, 0) = (0, 0).
Proof.
  induction n as [|k IH]; [reflexivity|].
  cbn [countdown]. destruct (countdown_head k) as [rest Hk].
  rewrite Hk in *. exact IH.
Qed.

Lemma armed_shape (total : Z) (cb : callback) :
  loop_runing (armed total cb) = true
  /\ is_pause (armed total cb) = false
  /\ timeup_callback (armed total cb) = Some cb
  /\ minute (armed total cb) = total / 60
  /\ second (armed total cb) = total mod 60.
Proof.
  repeat split.
Qed.

Lemma blinking_no_timeup (n : nat) :
  forall show m s, timeups (blinking n show m s) = O.
Proof.
  induction n as [|k IH]; intros show m s; cbn [blinking timeups]; [reflexivity|].
  destruct (negb show); apply IH.
Qed.

Lemma blinking_renders (n : nat) :
  forall show m s, Forall (fun p => p = (m, s)) (renders (blinking n show m s)).
Proof.
  induction n as [|k IH]; intros show m s; cbn [blinking renders]; [constructor|].
  destruct (negb show); [constructor; [reflexivity|]|]; apply IH.
Qed.

Lemma paused_loop (n : nat) :
  forall d : t,
    is_pause d = true -> loop_runing d = true ->
    loop n d
    = (blinking n (is_show d) (minute d) (second d),
       with_show (Nat.iter n negb (is_show d)) d).
Proof.
  induction n as [|k IH]; intros d Hp Hr.
  - cbn. now destruct d.
  - rewrite (loop_step _ _ Hr). unfold loop_body. rewrite Hp.
    unfold blink. cbn [is_show with_show].
    rewrite Nat.iter_succ_r.
    destruct (negb (is_show d)) eqn:E; cbn [fst snd];
      rewrite (IH (with_show _ d) Hp Hr); cbn [fst snd is_show minute second with_show];
      unfold blinking; fold blinking; rewrite E; reflexivity.
Qed.
End DisplayFacts.

(** C4.  A display set to [total] seconds (any integer) with a time-up
    callback and started runs [n + 1] passes and then has left its loop,
    however many more passes it is allowed: the running flag is cleared
    at 0:00.  The renders are the clock faces of [n], [n - 1], ..., 0
    seconds, each one second below the render before it, none with a
    negative minute or second, the last one 0:00; the callback is
    awaited exactly once, as the last event.  When [total] is at least 1
    the first render shows [total - 1], so there are [total] renders. *)
Theorem countdown_runs_to_zero (total : Z) (cb : callback) :
  exists n : nat,
    (1 <= total -> Z.of_nat n = total - 1)
    /\ forall extra : nat,
        let r := DigitalDisplay.loop (S n + extra) (armed total cb) in
        DigitalDisplay.loop_runing (snd r) = false
        /\ DigitalDisplay.minute (snd r) = 0
        /\ DigitalDisplay.second (snd r) = 0
        /\ DigitalDisplay.renders (fst r) = map clock_face (countdown n)
        /\ one_second_steps (DigitalDisplay.renders (fst r))
        /\ Forall (fun p => 0 <= fst p /\ 0 <= snd p) (DigitalDisplay.renders (fst r))
        /\ last (DigitalDisplay.renders (fst r)) (0, 0) = (0, 0)
        /\ DigitalDisplay.timeups (fst r) = 1%nat
        /\ last (fst r) (DigitalDisplay.sleep 0) = DigitalDisplay.timeup cb.
Proof.
  destruct (armed_shape total cb) as (Hr & Hp & Hcb & Hm & Hs).
  assert (Hrange : 0 <= DigitalDisplay.second (armed total cb) <= 59).
  { rewrite Hs. pose proof (Z.mod_pos_bound total 60). lia. }
  destruct (runs_down_any cb (armed total cb) Hr Hp Hcb Hrange) as (n & Hn & Hloop).
  exists n. split.
  - intros Htotal.
    assert (H0 : 0 <= total / 60) by (apply Z.div_pos; lia).
    pose proof (Z.div_mod total 60 ltac:(lia)) as Hdm.
    unfold DigitalDisplay.duration in Hn. rewrite Hm, Hs in Hn. lia.
  - intros extra. cbn zeta. rewrite Hloop. cbn [fst snd].
    rewrite renders_running_trace.
    repeat split.
    + apply countdown_steps.
    + apply countdown_nonneg.
    + apply countdown_last.
    + apply timeups_running_trace.
    + apply last_running_trace.
Qed.

Lemma countdown_runs_to_zero_witness :
  exists n : nat,
    (1 <= 180 -> Z.of_nat n = 180 - 1)
    /\ forall extra : nat,
        let r := DigitalDisplay.loop (S n + extra) (armed 180 transfer_to_lose) in
        DigitalDisplay.loop_runing (snd r) = false
        /\ DigitalDisplay.minute (snd r) = 0
        /\ DigitalDisplay.second (snd r) = 0
        /\ DigitalDisplay.renders (fst r) = map clock_face (countdown n)
        /\ one_second_steps (DigitalDisplay.renders (fst r))
        /\ Forall (fun p => 0 <= fst p /\ 0 <= snd p) (DigitalDisplay.renders (fst r))
        /\ last (DigitalDisplay.renders (fst r)) (0, 0) = (0, 0)
        /\ DigitalDisplay.timeups (fst r) = 1%nat
        /\ last (fst r) (DigitalDisplay.sleep 0) = DigitalDisplay.timeup transfer_to_lose.
Proof.
  exact (countdown_runs_to_zero 180 transfer_to_lose).
Defined.

(** What C4 leaves open: a display set to 0 seconds does not stop at
    once.  Its first pass borrows, the minute is clamped at 0, and the
    first render is 0:59; it then counts down as above. *)
Remark countdown_from_zero_wraps (cb : callback) :
  DigitalDisplay.renders (fst (DigitalDisplay.loop 1 (armed 0 cb))) = [(0, 59)]
  /\ DigitalDisplay.loop_runing (snd (DigitalDisplay.loop 1 (armed 0 cb))) = true.
Proof.
  split; reflexivity.
Qed.

(** The paused branch.  Every pass of the loop that begins after
    [pause()] is a paused pass: for any number [n] of them, minute,
    second, the paused flag, the running flag and the callback are as
    [pause()] left them; only the visibility flag changes, once per pass;
    each pass sleeps half a second and then renders the frozen pair or
    the blank display, alternately; the time-up callback is not
    awaited. *)
Theorem pause_freezes_time (d : DigitalDisplay.t) (n : nat) :
  DigitalDisplay.loop_runing d = true ->
  let r := DigitalDisplay.loop n (DigitalDisplay.pause d) in
  snd r = DigitalDisplay.with_show (Nat.iter n negb (DigitalDisplay.is_show d))
            (DigitalDisplay.pause d)
  /\ DigitalDisplay.minute (snd r) = DigitalDisplay.minute d
  /\ DigitalDisplay.second (snd r) = DigitalDisplay.second d
  /\ DigitalDisplay.is_pause (snd r) = true
  /\ DigitalDisplay.loop_runing (snd r) = true
  /\ fst r = blinking n (DigitalDisplay.is_show d)
               (DigitalDisplay.minute d) (DigitalDisplay.second d)
  /\ DigitalDisplay.timeups (fst r) = O
  /\ Forall (fun p => p = (DigitalDisplay.minute d, DigitalDisplay.second d))
       (DigitalDisplay.renders (fst r)).
Proof.
  intros Hr. cbn zeta.
  rewrite (paused_loop n (DigitalDisplay.pause d) eq_refl Hr).
  cbn [fst snd DigitalDisplay.pause DigitalDisplay.with_show DigitalDisplay.minute
       DigitalDisplay.second DigitalDisplay.is_pause DigitalDisplay.is_show].
  repeat split.
  - exact Hr.
  - apply blinking_no_timeup.
  - apply blinking_renders.
Qed.

Lemma pause_freezes_time_witness :
  DigitalDisplay.loop_runing (armed 180 transfer_to_lose) = true
  /\ fst (DigitalDisplay.loop 3 (DigitalDisplay.pause (armed 180 transfer_to_lose)))
     = blinking 3 true 3 0.
Proof.
  split; [reflexivity|].
  exact (proj1 (proj2 (proj2 (proj2 (proj2 (proj2
    (pause_freezes_time (armed 180 transfer_to_lose) 3 eq_refl))))))).
Defined.

(** A pass already in its one-second sleep when [pause()] is called
    finishes as a running pass.  If the display shows 0:00 at that
    moment, that pass still clears the running flag and awaits the
    callback, paused or not. *)
Remark pass_in_flight_ignores_pause (d : DigitalDisplay.t) (cb : callback) :
  DigitalDisplay.minute d = 0 -> DigitalDisplay.second d = 0 ->
  DigitalDisplay.timeup_callback d = Some cb ->
  fst (DigitalDisplay.expire (DigitalDisplay.pause d)) = [DigitalDisplay.timeup cb]
  /\ DigitalDisplay.loop_runing (snd (DigitalDisplay.expire (DigitalDisplay.pause d)))
     = false.
Proof.
  intros Hm Hs Hcb. unfold DigitalDisplay.expire. cbn. rewrite Hm, Hs, Hcb.
  split; reflexivity.
Qed.

(** C7, where the code breaks the claim.  The time-up test after the
    one-second sleep does not look at the paused flag.  When a running
    display with one second left runs its last pass and [pause()] is
    called during the sleep of that pass, the pass ends exactly as it
    would have ended without [pause()]: it has rendered 0:00, it awaits
    the time-up callback with the paused flag set, and it clears the
    running flag, so that the loop is left and not one paused pass ever
    runs: the display does not blink. *)
Theorem pause_in_last_second_still_times_up
  (d : DigitalDisplay.t) (cb : callback) :
  DigitalDisplay.loop_runing d = true ->
  DigitalDisplay.is_pause d = false ->
  DigitalDisplay.minute d = 0 ->
  DigitalDisplay.second d = 1 ->
  DigitalDisplay.timeup_callback d = Some cb ->
  let r := pass_paused_in_sleep d in
  fst r = [DigitalDisplay.numbers 0 0; DigitalDisplay.sleep 1; DigitalDisplay.timeup cb]
  /\ fst r = fst (DigitalDisplay.loop 1 d)
  /\ DigitalDisplay.is_pause (snd r) = true
  /\ DigitalDisplay.timeups (fst r) = 1%nat
  /\ DigitalDisplay.loop_runing (snd r) = false
  /\ DigitalDisplay.minute (snd r) = 0
  /\ DigitalDisplay.second (snd r) = 0
  /\ forall n : nat, DigitalDisplay.loop n (snd r) = ([], snd r).
Proof.
  intros Hr Hp Hm Hs Hcb. destruct d as [[run task] m s c p sh].
  cbn in Hr, Hp, Hm, Hs, Hcb. subst. cbn zeta.
  repeat split.
  intros [|n]; reflexivity.
Qed.

Lemma pause_in_last_second_still_times_up_witness :
  let d := snd (DigitalDisplay.loop 179 (armed 180 transfer_to_lose)) in
  (DigitalDisplay.minute d, DigitalDisplay.second d) = (0, 1)
  /\ fst (pass_paused_in_sleep d)
     = [DigitalDisplay.numbers 0 0; DigitalDisplay.sleep 1;
        DigitalDisplay.timeup transfer_to_lose]
  /\ DigitalDisplay.is_pause (snd (pass_paused_in_sleep d)) = true.
Proof.
  cbn zeta. split; [vm_compute; reflexivity|].
  assert (Hr : DigitalDisplay.loop_runing
                 (snd (DigitalDisplay.loop 179 (armed 180 transfer_to_lose))) = true)
    by (vm_compute; reflexivity).
  assert (Hp : DigitalDisplay.is_pause
                 (snd (DigitalDisplay.loop 179 (armed 180 transfer_to_lose))) = false)
    by (vm_compute; reflexivity).
  assert (Hm : DigitalDisplay.minute
                 (snd (DigitalDisplay.loop 179 (armed 180 transfer_to_lose))) = 0)
    by (vm_compute; reflexivity).
  assert (Hs : DigitalDisplay.second
                 (snd (DigitalDisplay.loop 179 (armed 180 transfer_to_lose))) = 1)
    by (vm_compute; reflexivity).
  assert (Hcb : DigitalDisplay.timeup_callback
                  (snd (DigitalDisplay.loop 179 (armed 180 transfer_to_lose)))
                = Some transfer_to_lose)
    by (vm_compute; reflexivity).
  destruct (pause_in_last_second_still_times_up
              (snd (DigitalDisplay.loop 179 (armed 180 transfer_to_lose)))
              transfer_to_lose Hr Hp Hm Hs Hcb)
    as (H1 & _ & H2 & _).
  split; [exact H1|exact H2].
Defined.

(** ** The scheduler model *)

Lemma run_activity_pending (a : activity) (w : world) :
  pending (run_activity a w) = pending w.
Proof.
  unfold run_activity. destruct (what a) as [b value|].
  - destruct (Button.sample value (buttons (set_clock (now a) w) b)) as [self1 [cb|]];
      [destruct cb|]; reflexivity.
  - destruct (DigitalDisplay.timeup_callback (digital_display (set_clock (now a) w)))
      as [cb|]; [destruct cb|]; reflexivity.
Qed.

Lemma run_activities_pending (l : list activity) :
  forall w, pending (run_activities l w) = pending w.
Proof.
  unfold run_activities.
  induction l as [|a l IH]; intros w; cbn [fold_left]; [reflexivity|].
  rewrite IH. apply run_activity_pending.
Qed.

(** [while_sleep] is the loop it stands for: test, sleep, again. *)
Lemma while_sleep_unroll (cond : world -> bool) (t : Q) (w : world) :
  while_sleep cond t w
  = if cond w then (asyncio_sleep t ;; while_sleep cond t) w else Ret tt w.
Proof.
  unfold while_sleep at 1. destruct (cond w); [|reflexivity].
  unfold bind, asyncio_sleep, suspend.
  destruct (pending w) as [|acts later]; [reflexivity|].
  cbn [keep_sleeping]. unfold while_sleep.
  rewrite run_activities_pending. reflexivity.
Qed.

(** [time_queue_get] is [SimpleQueue.get] retried after each suspension. *)
Lemma time_queue_get_unroll (w : world) :
  time_queue_get w
  = match SimpleQueue.get (time_queue w) with
    | Some (item, q) => Ret item (set_time_queue q w)
    | None => (suspend ;; time_queue_get) w
    end.
Proof.
  unfold time_queue_get at 1.
  destruct (SimpleQueue.get (time_queue w)) as [[item q]|]; [reflexivity|].
  unfold bind, suspend.
  destruct (pending w) as [|acts later]; [reflexivity|].
  cbn [wait_for_item]. unfold time_queue_get.
  rewrite run_activities_pending. reflexivity.
Qed.

(** ** The short-code mode of [morse] *)

(** C5.  In the short-code mode (mode draw 0), for every code drawn,
    [morse] returns at once with exactly one button wired to
    [transfer_to_win], the one at index [(sum(code) - 1) mod 4] of
    up-left, down-right, up-right, down-left, and the three others wired
    to [transfer_to_lose]; the transfer queue and the button states are
    untouched.  A press then seen on a released button adds Game_win to
    the queue if it is that button and Game_over otherwise.  For the code
    0,1,0,0 the winning button is up-left. *)
Theorem short_code_wiring (w : world) :
  randint_of 0 1 (entropy w (drawn w)) = 0 ->
  exists code w1 b w',
    draw_code (set_drawn (S (drawn w)) w) = Ret code w1
    /\ morse w = Ret tt w'
    /\ nth_error morse_buttons (Z.to_nat ((sum code - 1) mod 4)) = Some b
    /\ (forall b', Button.on_pressed (buttons w' b')
                   = Some (if button_eqb b' b then transfer_to_win
                           else transfer_to_lose))
    /\ transfer_queue w' = transfer_queue w
    /\ (forall b', Button.state (buttons w' b') = Button.state (buttons w b'))
    /\ (forall b' t,
           Button.state (buttons w b') = false ->
           outcomes (run_activity (at_time t (button_polls b' 0)) w')
           = outcomes w ++ [if button_eqb b' b then Game_win else Game_over])
    /\ (code = [0; 1; 0; 0] -> b = up_left_button).
Proof.
  intros Hmode.
  destruct (draw_code_spec (set_drawn (S (drawn w)) w))
    as (code & Hdraw & Hlen & Hbits & Hin & Hcount).
  exists code. eexists.
  assert (Hc : sum code - 1 = 0 \/ sum code - 1 = 1
               \/ sum code - 1 = 2 \/ sum code - 1 = 3) by lia.
  assert (Hrun : forall k b,
             sum code - 1 = k -> getitem morse_buttons k = Some b ->
             exists w',
               morse w = Ret tt w'
               /\ (forall b', Button.on_pressed (buttons w' b')
                              = Some (if button_eqb b' b then transfer_to_win
                                      else transfer_to_lose))
               /\ transfer_queue w' = transfer_queue w
               /\ (forall b', Button.state (buttons w' b') = Button.state (buttons w b'))).
  { intros k b Hk Hb. eexists. split.
    - unfold morse. cbv beta iota delta [bind randint].
      rewrite Hmode, Hdraw. cbv beta iota.
      change (0 =? 0) with true. change (0 =? 1) with false. cbv beta iota.
      rewrite Hk, Hb. reflexivity.
    - repeat split.
      + intros b'. destruct b', b; reflexivity.
      + intros b'. destruct b', b; reflexivity. }
  assert (Hpress : forall b w',
             (forall b', Button.on_pressed (buttons w' b')
                         = Some (if button_eqb b' b then transfer_to_win
                                 else transfer_to_lose)) ->
             transfer_queue w' = transfer_queue w ->
             (forall b', Button.state (buttons w' b') = Button.state (buttons w b')) ->
             forall b' t,
               Button.state (buttons w b') = false ->
               outcomes (run_activity (at_time t (button_polls b' 0)) w')
               = outcomes w ++ [if button_eqb b' b then Game_win else Game_over]).
  { intros b w' Hwire Hq Hst b' t Hrel.
    unfold run_activity, Button.sample, outcomes.
    cbn [now what Button.is_pressed Z.eqb].
    change (buttons (set_clock t w') b') with (buttons w' b').
    rewrite Hst, Hrel. cbn [xorb negb Button.on_pressed].
    rewrite Hwire. destruct (button_eqb b' b); cbn; rewrite Hq; reflexivity. }
  destruct Hc as [Hc|[Hc|[Hc|Hc]]];
    [ destruct (Hrun 0 up_left_button Hc eq_refl) as (w' & Hm & Hw & Hq & Hs);
      exists up_left_button, w'
    | destruct (Hrun 1 down_right_button Hc eq_refl) as (w' & Hm & Hw & Hq & Hs);
      exists down_right_button, w'
    | destruct (Hrun 2 up_right_button Hc eq_refl) as (w' & Hm & Hw & Hq & Hs);
      exists up_right_button, w'
    | destruct (Hrun 3 down_left_button Hc eq_refl) as (w' & Hm & Hw & Hq & Hs);
      exists down_left_button, w' ];
    (split; [exact Hdraw|]);
    (split; [exact Hm|]);
    (split; [rewrite Hc; reflexivity|]);
    (split; [exact Hw|]);
    (split; [exact Hq|]);
    (split; [exact Hs|]);
    (split; [exact (Hpress _ w' Hw Hq Hs)|]);
    try reflexivity;
    intros ->; cbn in Hc; discriminate.
Qed.

Lemma short_code_wiring_witness :
  randint_of 0 1 (entropy short_code_round (drawn short_code_round)) = 0
  /\ exists code w1 b w',
      draw_code (set_drawn (S (drawn short_code_round)) short_code_round)
      = Ret code w1
      /\ morse short_code_round = Ret tt w'
      /\ nth_error morse_buttons (Z.to_nat ((sum code - 1) mod 4)) = Some b
      /\ (forall b', Button.on_pressed (buttons w' b')
                     = Some (if button_eqb b' b then transfer_to_win
                             else transfer_to_lose))
      /\ transfer_queue w' = transfer_queue short_code_round
      /\ (forall b', Button.state (buttons w' b')
                     = Button.state (buttons short_code_round b'))
      /\ (forall b' t,
             Button.state (buttons short_code_round b') = false ->
             outcomes (run_activity (at_time t (button_polls b' 0)) w')
             = outcomes short_code_round
               ++ [if button_eqb b' b then Game_win else Game_over])
      /\ (code = [0; 1; 0; 0] -> b = up_left_button).
Proof.
  split; [reflexivity|].
  exact (short_code_wiring short_code_round eq_refl).
Defined.

(** ** The long-code rounds of [morse] *)

(** A round that finds a transfer already queued returns from [morse]
    without adding anything. *)
Lemma morse_round_yields (w : world) (long : Z) (b : button)
  (x : transfer) (l : list transfer) :
  SimpleQueue._queue (transfer_queue w) = x :: l ->
  exists w',
    morse_round long b w = Ret Returned w'
    /\ outcomes w' = x :: l
    /\ pending w' = pending w.
Proof.
  intros Hq.
  destruct w as [[[a1 s1 p1 r1] [a2 s2 p2 r2] [a3 s3 p3 r3] [a4 s4 p4 r4]]
                   dd [tql tqe] tmq pt tk en dr cl pd].
  cbn [transfer_queue SimpleQueue._queue] in Hq. subst tql.
  destruct b; vm_compute; eexists; (split; [reflexivity|split; reflexivity]).
Qed.

(** A round in which the current button is pressed at [p] and released
    at [r] goes on to the next symbol whether or not the hold matches the
    symbol; on a mismatch Game_over has been queued on the way. *)
Lemma morse_round_verdict (w : world) (long : Z) (b : button) (p r : Q)
  (rest : list (list activity)) :
  Button.state (buttons w b) = false ->
  SimpleQueue._queue (transfer_queue w) = [] ->
  pending w = [[at_time p (button_polls b 0)]; [at_time r (button_polls b 1)]] ++ rest ->
  exists w',
    morse_round long b w = Ret Continue w'
    /\ pending w' = rest
    /\ outcomes w'
       = (if negb (Z.lxor long (Z.b2z (Qgt_bool (Qabs (r - p)) 0.5)) =? 0)
          then [Game_over] else [])
    /\ (forall b', Button.state (buttons w' b') = Button.state (buttons w b')).
Proof.
  intros Hst Hq Hpend.
  destruct w as [[[a1 s1 p1 r1] [a2 s2 p2 r2] [a3 s3 p3 r3] [a4 s4 p4 r4]]
                   dd [tql tqe] tmq pt tk en dr cl pd].
  cbn [pending transfer_queue SimpleQueue._queue] in Hq, Hpend. subst tql pd.
  destruct b; cbn in Hst; subst.
  all: vm_compute.
  all: match goal with
       | |- context [match ?c with true => _ | false => _ end] => destruct c
       end.
  all: eexists; (split; [reflexivity|split; [reflexivity|split; [reflexivity|]]]).
  all: intros b'; destruct b'; reflexivity.
Qed.

(** A mismatch on a symbol that is not the last: Game_over is queued, the
    next round sees it and [morse] returns; one outcome. *)
Lemma morse_for_mismatch_before_last
  (w : world) (long : Z) (b : button) (p r : Q) (rest : list (list activity))
  (next : Z * button) (more : list (Z * button)) :
  Button.state (buttons w b) = false ->
  SimpleQueue._queue (transfer_queue w) = [] ->
  pending w = [[at_time p (button_polls b 0)]; [at_time r (button_polls b 1)]] ++ rest ->
  negb (Z.lxor long (Z.b2z (Qgt_bool (Qabs (r - p)) 0.5)) =? 0) = true ->
  exists w',
    morse_for ((long, b) :: next :: more) w = Ret Returned w'
    /\ outcomes w' = [Game_over].
Proof.
  intros Hst Hq Hpend Hmiss.
  destruct (morse_round_verdict w long b p r rest Hst Hq Hpend)
    as (w1 & Hrun & _ & Hout & _).
  rewrite Hmiss in Hout.
  destruct next as [long2 b2].
  destruct (morse_round_yields w1 long2 b2 Game_over [] Hout)
    as (w2 & Hrun2 & Hout2 & _).
  exists w2. split; [|exact Hout2].
  cbn [morse_for]. unfold bind. rewrite Hrun, Hrun2. reflexivity.
Qed.

(** A mismatch on the last symbol: Game_over is queued, the loop ends
    normally and [morse] goes on to queue Game_win as well. *)
Lemma morse_for_mismatch_last
  (w : world) (long : Z) (b : button) (p r : Q) (rest : list (list activity)) :
  Button.state (buttons w b) = false ->
  SimpleQueue._queue (transfer_queue w) = [] ->
  pending w = [[at_time p (button_polls b 0)]; [at_time r (button_polls b 1)]] ++ rest ->
  negb (Z.lxor long (Z.b2z (Qgt_bool (Qabs (r - p)) 0.5)) =? 0) = true ->
  exists w',
    (c <- morse_for [(long, b)] ;;
     match c with
     | Returned => ret tt
     | Continue => await_callback transfer_to_win
     end) w = Ret tt w'
    /\ outcomes w' = [Game_over; Game_win].
Proof.
  intros Hst Hq Hpend Hmiss.
  destruct (morse_round_verdict w long b p r rest Hst Hq Hpend)
    as (w1 & Hrun & _ & Hout & _).
  rewrite Hmiss in Hout.
  eexists. split.
  - cbn [morse_for]. unfold bind. rewrite Hrun. reflexivity.
  - unfold outcomes in *. cbn. rewrite Hout. reflexivity.
Qed.

(** C1, on the code: with code 0,0,0,1 and every button held for 0.2 s
    the fourth symbol is the one that fails.  [morse] queues Game_over
    for it, leaves the loop in the ordinary way, and queues Game_win
    after it: one run delivers both outcomes. *)
Theorem morse_last_symbol_miss_queues_both :
  exists w',
    morse last_symbol_miss = Ret tt w'
    /\ outcomes w' = [Game_over; Game_win]
    /\ pending w' = [].
Proof.
  eexists. split; [vm_compute; reflexivity|split; reflexivity].
Qed.

(** ** The low-high mode of [pitch] *)

Lemma Qgt_bool_true (x y : Q) : Qgt_bool x y = true <-> (y < x)%Q.
Proof.
  unfold Qgt_bool. rewrite negb_true_iff, <- not_true_iff_false, Qle_bool_iff.
  split; [apply Qnot_le_lt|apply Qlt_not_le].
Qed.

Lemma Qgt_bool_false (x y : Q) : Qgt_bool x y = false <-> (x <= y)%Q.
Proof.
  unfold Qgt_bool. rewrite negb_false_iff, Qle_bool_iff. reflexivity.
Qed.

(** The block under [if mode == 0] when the selected button is pressed
    at [p] and released at [r] and nothing else happens. *)
Lemma pitch_low_high_classifies
  (w : world) (long up right : Z) (b : button) (p r : Q)
  (rest : list (list activity)) :
  (up = 0 \/ up = 1) -> (right = 0 \/ right = 1) ->
  pitch_button up right = Some b ->
  Button.state (buttons w b) = false ->
  SimpleQueue._queue (transfer_queue w) = [] ->
  pending w = [[at_time p (button_polls b 0)]; [at_time r (button_polls b 1)]] ++ rest ->
  exists w',
    pitch_low_high long up right w = Ret Continue w'
    /\ pending w' = rest
    /\ outcomes w'
       = [if negb (Z.lxor long (Z.b2z (Qgt_bool (r - p) 0.5)) =? 0)
          then Game_over else Game_win].
Proof.
  intros Hup Hright Hb Hst Hq Hpend.
  destruct w as [[[a1 s1 p1 r1] [a2 s2 p2 r2] [a3 s3 p3 r3] [a4 s4 p4 r4]]
                   dd [tql tqe] tmq pt tk en dr cl pd].
  cbn [pending transfer_queue SimpleQueue._queue] in Hq, Hpend. subst tql pd.
  destruct Hup as [-> | ->], Hright as [-> | ->]; cbn in Hb; injection Hb as <-;
    cbn in Hst; subst.
  all: vm_compute.
  all: match goal with
       | |- context [match ?c with true => _ | false => _ end] => destruct c
       end.
  all: eexists; (split; [reflexivity|split; reflexivity]).
Qed.

(** The same block when the first thing that happens is a press of
    another button, still wired to [transfer_to_lose]: the wait ends with
    the timing queue empty, and reading its head raises. *)
Lemma pitch_low_high_preempted
  (w : world) (long up right : Z) (b b' : button) (t : Q)
  (rest : list (list activity)) :
  (up = 0 \/ up = 1) -> (right = 0 \/ right = 1) ->
  pitch_button up right = Some b ->
  b' <> b ->
  Button.state (buttons w b') = false ->
  Button.on_pressed (buttons w b') = Some transfer_to_lose ->
  SimpleQueue._queue (transfer_queue w) = [] ->
  pending w = [at_time t (button_polls b' 0)] :: rest ->
  exists w',
    pitch_low_high long up right w = Exn IndexError w'
    /\ outcomes w' = [Game_over]
    /\ SimpleQueue._queue (time_queue w') = [].
Proof.
  intros Hup Hright Hb Hne Hst Hon Hq Hpend.
  destruct w as [[[a1 s1 p1 r1] [a2 s2 p2 r2] [a3 s3 p3 r3] [a4 s4 p4 r4]]
                   dd [tql tqe] tmq pt tk en dr cl pd].
  cbn [pending transfer_queue SimpleQueue._queue] in Hq, Hpend. subst tql pd.
  destruct Hup as [-> | ->], Hright as [-> | ->]; cbn in Hb; injection Hb as <-;
    destruct b'; try (exfalso; apply Hne; reflexivity);
    cbn in Hst, Hon; subst.
  all: vm_compute; eexists; (split; [reflexivity|split; reflexivity]).
Qed.

Ltac enter_pitch_low_high Hmode :=
  unfold pitch; cbv beta iota delta [bind randint];
  rewrite Hmode; change (0 =? 0) with true; change (0 =? 1) with false;
  cbv beta iota; cbn [entropy drawn set_drawn];
  unfold create_play_task, set_all_buttons_with, set_on_pressed, modify, bind;
  cbv beta iota.

(** C6.  In the low-high mode of [pitch] (mode draw 0), when the selected
    button is pressed at [p] and released at [r] before anything else
    happens, [pitch] returns having queued exactly one outcome, decided
    by the signed difference [r - p]: the hold is long iff
    [r - p > 0.5], and the outcome is Game_win iff that agrees with the
    [long] draw.  With [long = 1]: a hold above 0.5 s (0.6 s) wins, a
    hold of at most 0.5 s (0.3 s) loses, and a release stamped before the
    press loses, whatever its distance. *)
Theorem pitch_hold_classification
  (w : world) (b : button) (p r : Q) (rest : list (list activity)) :
  let long := randint_of 0 1 (entropy w (S (drawn w))) in
  let up := randint_of 0 1 (entropy w (S (S (drawn w)))) in
  let right := randint_of 0 1 (entropy w (S (S (S (drawn w))))) in
  randint_of 0 1 (entropy w (drawn w)) = 0 ->
  pitch_button up right = Some b ->
  Button.state (buttons w b) = false ->
  SimpleQueue._queue (transfer_queue w) = [] ->
  pending w = [[at_time p (button_polls b 0)]; [at_time r (button_polls b 1)]] ++ rest ->
  exists w',
    pitch w = Ret tt w'
    /\ pending w' = rest
    /\ outcomes w'
       = [if negb (Z.lxor long (Z.b2z (Qgt_bool (r - p) 0.5)) =? 0)
          then Game_over else Game_win]
    /\ (long = 1 -> (0.5 < r - p)%Q -> outcomes w' = [Game_win])
    /\ (long = 1 -> (r - p <= 0.5)%Q -> outcomes w' = [Game_over])
    /\ (long = 1 -> (r - p == 0.6)%Q -> outcomes w' = [Game_win])
    /\ (long = 1 -> (r - p == 0.3)%Q -> outcomes w' = [Game_over])
    /\ (long = 1 -> (r < p)%Q -> outcomes w' = [Game_over]).
Proof.
  intros long up right Hmode Hb Hst Hq Hpend.
  assert (Hrun : exists w',
             pitch w = Ret tt w' /\ pending w' = rest
             /\ outcomes w'
                = [if negb (Z.lxor long (Z.b2z (Qgt_bool (r - p) 0.5)) =? 0)
                   then Game_over else Game_win]).
  { enter_pitch_low_high Hmode. fold long up right.
    match goal with
    | |- context [pitch_low_high long up right ?w0] =>
        destruct (pitch_low_high_classifies w0 long up right b p r rest)
          as (w' & Hrun & Hp & Ho)
    end.
    - pose proof (randint_of_range 0 1 (entropy w (S (S (drawn w)))) ltac:(lia)).
      unfold up. lia.
    - pose proof (randint_of_range 0 1 (entropy w (S (S (S (drawn w))))) ltac:(lia)).
      unfold right. lia.
    - exact Hb.
    - destruct b; exact Hst.
    - exact Hq.
    - exact Hpend.
    - exists w'. rewrite Hrun. cbv beta iota. unfold ret. repeat split; assumption. }
  destruct Hrun as (w' & Hrun & Hp & Ho).
  assert (Hwin : long = 1 -> (0.5 < r - p)%Q -> outcomes w' = [Game_win]).
  { intros Hl Hlt. rewrite Ho, Hl, (proj2 (Qgt_bool_true _ _) Hlt). reflexivity. }
  assert (Hlose : long = 1 -> (r - p <= 0.5)%Q -> outcomes w' = [Game_over]).
  { intros Hl Hle. rewrite Ho, Hl, (proj2 (Qgt_bool_false _ _) Hle). reflexivity. }
  exists w'. repeat split; try assumption.
  - intros Hl H. apply Hwin; [exact Hl|]. rewrite H. reflexivity.
  - intros Hl H. apply Hlose; [exact Hl|]. rewrite H. discriminate.
  - intros Hl H. apply Hlose; [exact Hl|]. lra.
Qed.

Lemma pitch_hold_classification_witness :
  outcomes (final_world (pitch (long_hold_round 1.6))) = [Game_win].
Proof.
  destruct (pitch_hold_classification (long_hold_round 1.6) up_right_button 1 1.6 []
              eq_refl eq_refl eq_refl eq_refl eq_refl)
    as (w' & Hrun & _ & _ & Hwin & _).
  rewrite Hrun. apply Hwin; reflexivity.
Defined.

(** C2, on the code: in a low-high round of [pitch] on the up-right
    button, a press of the down-left button arrives before any timing
    record.  Game_over is queued by that press, the wait ends with the
    timing queue empty, and [pitch] raises [IndexError] at
    [time_queue._queue[0]] instead of returning. *)
Theorem pitch_preempted_raises_index_error :
  exists w',
    pitch wrong_button_first = Exn IndexError w'
    /\ outcomes w' = [Game_over]
    /\ SimpleQueue._queue (time_queue w') = [].
Proof.
  eexists. split; [vm_compute; reflexivity|split; reflexivity].
Qed.

(** The same for every draw and every other button: in the low-high
    mode a first press of a button other than the selected one always
    ends [pitch] with [IndexError]. *)
Lemma pitch_preempted_always_raises
  (w : world) (b b' : button) (t : Q) (rest : list (list activity)) :
  let up := randint_of 0 1 (entropy w (S (S (drawn w)))) in
  let right := randint_of 0 1 (entropy w (S (S (S (drawn w))))) in
  randint_of 0 1 (entropy w (drawn w)) = 0 ->
  pitch_button up right = Some b ->
  b' <> b ->
  Button.state (buttons w b') = false ->
  SimpleQueue._queue (transfer_queue w) = [] ->
  pending w = [at_time t (button_polls b' 0)] :: rest ->
  exists w',
    pitch w = Exn IndexError w' /\ outcomes w' = [Game_over].
Proof.
  intros up right Hmode Hb Hne Hst Hq Hpend.
  enter_pitch_low_high Hmode. fold up right.
  match goal with
  | |- context [pitch_low_high ?long up right ?w0] =>
      destruct (pitch_low_high_preempted w0 long up right b b' t rest)
        as (w' & Hrun & Ho & _)
  end.
  - pose proof (randint_of_range 0 1 (entropy w (S (S (drawn w)))) ltac:(lia)).
    unfold up. lia.
  - pose proof (randint_of_range 0 1 (entropy w (S (S (S (drawn w))))) ltac:(lia)).
    unfold right. lia.
  - exact Hb.
  - exact Hne.
  - destruct b'; exact Hst.
  - destruct b'; reflexivity.
  - exact Hq.
  - exact Hpend.
  - exists w'. rewrite Hrun. split; [reflexivity|exact Ho].
Qed.

(** * Further properties of the code *)

(** ** SimpleQueue: the event flag and the size *)

Section QueueMore.
Context {A : Type}.
Implicit Types (q : SimpleQueue.t A) (x : A).

Lemma put_event_agrees x q :
  SimpleQueue._ev (SimpleQueue.put x q) = negb (SimpleQueue.empty (SimpleQueue.put x q)).
Proof.
  unfold SimpleQueue.put, SimpleQueue.empty.
  cbn [SimpleQueue._queue SimpleQueue._ev].
  rewrite length_app. cbn [List.length].
  destruct (Z.eqb_spec (Z.of_nat (List.length (SimpleQueue._queue q) + 1)) 0); [lia|].
  reflexivity.
Qed.

Lemma get_event_agrees q x q1 :
  SimpleQueue._ev q = negb (SimpleQueue.empty q) ->
  SimpleQueue.get q = Some (x, q1) ->
  SimpleQueue._ev q1 = negb (SimpleQueue.empty q1).
Proof.
  unfold SimpleQueue.get. intros Hq.
  destruct (SimpleQueue.empty q) eqn:He; [discriminate|].
  destruct (SimpleQueue._queue q) as [|y rest]; [discriminate|].
  destruct (SimpleQueue.empty {| SimpleQueue._queue := rest; SimpleQueue._ev := SimpleQueue._ev q |})
    eqn:He1; intros [= <- <-].
  - unfold SimpleQueue.empty in *. cbn in *. now rewrite He1.
  - rewrite He1. cbn. rewrite Hq. reflexivity.
Qed.
End QueueMore.

(** X1.  The wake-up event of a queue mirrors its content: starting from
    a new queue (or any queue on which they agree), after any schedule of
    [put] and [get] calls the event is set exactly when the queue is not
    empty.  In particular a [get] that empties the queue clears the
    event, so a later waiter is not woken by a stale signal. *)
Theorem simple_queue_event_mirrors_content
  (A : Type) (calls : list (SimpleQueue.call A)) :
  forall q : SimpleQueue.t A,
    SimpleQueue._ev q = negb (SimpleQueue.empty q) ->
    SimpleQueue._ev (snd (SimpleQueue.run calls q))
    = negb (SimpleQueue.empty (snd (SimpleQueue.run calls q))).
Proof.
  induction calls as [|[x|] calls IH]; intros q Hq; cbn [SimpleQueue.run].
  - exact Hq.
  - apply IH. apply put_event_agrees.
  - destruct (SimpleQueue.get q) as [[x q1]|] eqn:Hg.
    + specialize (IH q1 (get_event_agrees q x q1 Hq Hg)).
      destruct (SimpleQueue.run calls q1). exact IH.
    + apply IH, Hq.
Qed.

Lemma simple_queue_event_mirrors_content_witness :
  SimpleQueue._ev
    (snd (SimpleQueue.run [SimpleQueue.Put 1; SimpleQueue.Get; SimpleQueue.Get;
                           SimpleQueue.Put 2]
            SimpleQueue.new))
  = negb (SimpleQueue.empty
            (snd (SimpleQueue.run [SimpleQueue.Put 1; SimpleQueue.Get; SimpleQueue.Get;
                                   SimpleQueue.Put 2]
                    SimpleQueue.new))).
Proof.
  exact (simple_queue_event_mirrors_content Z _ SimpleQueue.new eq_refl).
Defined.

(** X2.  [qsize] counts what was put and not yet delivered: after any
    schedule of calls it is the old size plus the number of puts minus
    the number of items delivered; and a [get] waits if and only if
    [empty] holds. *)
Theorem simple_queue_size_accounts
  (A : Type) (calls : list (SimpleQueue.call A)) (q : SimpleQueue.t A) :
  SimpleQueue.qsize (snd (SimpleQueue.run calls q))
  = SimpleQueue.qsize q + put_count calls
    - Z.of_nat (List.length (fst (SimpleQueue.run calls q)))
  /\ (SimpleQueue.get q = None <-> SimpleQueue.empty q = true)
  /\ (SimpleQueue.empty q = true <-> SimpleQueue.qsize q = 0).
Proof.
  split; [|split].
  - pose proof (run_delivers_in_order calls q) as H.
    apply (f_equal (@List.length A)) in H. rewrite !length_app in H.
    unfold SimpleQueue.qsize, put_count. lia.
  - split.
    + intros Hg. destruct (SimpleQueue._queue q) as [|x rest] eqn:E.
      * now apply empty_iff_nil.
      * destruct (get_head q x rest E) as (q1 & Hq1 & _). congruence.
    + intros He. apply get_waits. now apply empty_iff_nil.
  - unfold SimpleQueue.empty, SimpleQueue.qsize. apply Z.eqb_eq.
Qed.

Lemma simple_queue_size_accounts_witness :
  SimpleQueue.qsize
    (snd (SimpleQueue.run [SimpleQueue.Put 7; SimpleQueue.Put 8; SimpleQueue.Get]
            (SimpleQueue.new (A := Z))))
  = 0 + put_count [SimpleQueue.Put 7; SimpleQueue.Put 8; SimpleQueue.Get]
    - Z.of_nat (List.length
                  (fst (SimpleQueue.run
                          [SimpleQueue.Put 7; SimpleQueue.Put 8; SimpleQueue.Get]
                          (SimpleQueue.new (A := Z))))).
Proof.
  exact (proj1 (simple_queue_size_accounts Z
                  [SimpleQueue.Put 7; SimpleQueue.Put 8; SimpleQueue.Get]
                  SimpleQueue.new)).
Defined.

(** ** Button: debouncing *)

Lemma sample_state (value : Z) (b : Button.t) :
  Button.state (fst (Button.sample value b)) = Button.is_pressed value.
Proof.
  unfold Button.sample.
  destruct (Button.is_pressed value) eqn:Ev, (Button.state b) eqn:Es;
    cbn; congruence.
Qed.


Lemma sample_keeps_wiring (value : Z) (b : Button.t) :
  Button.on_pressed (fst (Button.sample value b)) = Button.on_pressed b
  /\ Button.on_released (fst (Button.sample value b)) = Button.on_released b
  /\ Button.base (fst (Button.sample value b)) = Button.base b.
Proof.
  unfold Button.sample.
  destruct (negb (xorb (Button.is_pressed value) (Button.state b)));
    [|destruct (Button.is_pressed value)]; repeat split.
Qed.




Lemma last_cons_default {A : Type} (l : list A) :
  forall x d, last (x :: l) d = last l x.
Proof.
  induction l as [|y l IH]; intros x d; [reflexivity|].
  change (last (x :: y :: l) d) with (last (y :: l) d).
  now rewrite (IH y d), (IH y x).
Qed.

Lemma edges_alternate (values : list Z) :
  forall b, alternates (Button.state b) (Button.edges values b).
Proof.
  induction values as [|v values IH]; intros b; cbn [Button.edges]; [exact I|].
  specialize (IH (fst (Button.sample v b))). rewrite sample_state in IH.
  unfold Button.edge.
  destruct (Button.is_pressed v) eqn:Ev, (Button.state b) eqn:Es; cbn; auto.
Qed.

Lemma passes_follow_edges (values : list Z) :
  forall b,
    snd (Button.passes values b) = flat_map (callback_on b) (Button.edges values b)
    /\ Button.on_pressed (fst (Button.passes values b)) = Button.on_pressed b
    /\ Button.on_released (fst (Button.passes values b)) = Button.on_released b.
Proof.
  induction values as [|v values IH]; intros b; cbn [Button.passes Button.edges].
  - repeat split.
  - destruct (sample_keeps_wiring v b) as (Hp & Hr & _).
    specialize (IH (fst (Button.sample v b))). destruct IH as (IH & IHp & IHr).
    assert (Hcb : forall e, callback_on (fst (Button.sample v b)) e = callback_on b e).
    { intros e. unfold callback_on. rewrite Hp, Hr. reflexivity. }
    rewrite (flat_map_ext _ _ Hcb) in IH.
    destruct (Button.sample v b) as [b1 cb] eqn:E. cbn [fst] in *.
    destruct (Button.passes values b1) as [b2 cbs]. cbn [fst snd] in *.
    rewrite IHp, IHr, Hp, Hr. repeat split.
    rewrite IH. unfold Button.sample in E. unfold Button.edge, callback_on.
    destruct (negb (xorb (Button.is_pressed v) (Button.state b)));
      [injection E as <- <-; reflexivity|].
    destruct (Button.is_pressed v); injection E as <- <-; cbn [flat_map];
      cbn [Button.on_pressed Button.on_released];
      destruct (Button.on_pressed b), (Button.on_released b); reflexivity.
Qed.

Lemma passes_keep_base (values : list Z) :
  forall b : Button.t, Button.base (fst (Button.passes values b)) = Button.base b.
Proof.
  induction values as [|v values IH]; intros b; [reflexivity|].
  cbn [Button.passes].
  destruct (Button.sample v b) as [b1 cb] eqn:E.
  specialize (IH b1). destruct (Button.passes values b1) as [b2 cbs].
  cbn [fst] in *. rewrite IH.
  pose proof (sample_keeps_wiring v b) as H. rewrite E in H. apply H.
Qed.

Lemma passes_end_state (values : list Z) :
  forall b : Button.t,
    Button.state (fst (Button.passes values b))
    = last (map Button.is_pressed values) (Button.state b).
Proof.
  induction values as [|v values IH]; intros b; [reflexivity|].
  cbn [Button.passes].
  destruct (Button.sample v b) as [b1 cb] eqn:E.
  specialize (IH b1). destruct (Button.passes values b1) as [b2 cbs].
  cbn [fst] in *. rewrite IH.
  assert (Hs : Button.state b1 = Button.is_pressed v).
  { pose proof (sample_state v b) as H. now rewrite E in H. }
  rewrite Hs. cbn [map]. now rewrite last_cons_default.
Qed.

(** X4.  The loop of a started button (its running flag is set),
    whatever the pin reads: the edges it detects alternate, the first is
    the opposite of the stored state and each one the opposite of the one
    before, so no press is reported twice without a release in between.
    The callbacks awaited are exactly the pressed-callback for each press
    edge and the released-callback for each release edge, in order, a
    missing callback being skipped; the loop changes neither the wiring
    nor the running flag and the handle, and afterwards the stored state
    is the last value read. *)
Theorem button_edges_alternate (values : list Z) (b : Button.t) :
  Button.loop_runing b = Some true ->
  exists b' : Button.t,
    Button.loop values b
    = inr (b', flat_map (callback_on b) (Button.edges values b))
    /\ alternates (Button.state b) (Button.edges values b)
    /\ Button.on_pressed b' = Button.on_pressed b
    /\ Button.on_released b' = Button.on_released b
    /\ Button.base b' = Button.base b
    /\ Button.state b' = last (map Button.is_pressed values) (Button.state b).
Proof.
  intros Hon. exists (fst (Button.passes values b)).
  destruct (passes_follow_edges values b) as (H1 & H2 & H3).
  split; [|split; [|split; [|split; [|split]]]].
  - unfold Button.loop. rewrite Hon. rewrite <- H1.
    now destruct (Button.passes values b).
  - apply edges_alternate.
  - exact H2.
  - exact H3.
  - apply passes_keep_base.
  - apply passes_end_state.
Qed.

Lemma button_edges_alternate_witness :
  let b := Button.set_on_released record_release_time
             (Button.set_on_pressed transfer_to_lose
                (fst (Button.start up_left_button Button.new []))) in
  Button.loop_runing b = Some true
  /\ Button.edges [0; 0; 1; 1; 0] b = [true; false; true]
  /\ exists b' : Button.t,
       Button.loop [0; 0; 1; 1; 0] b
       = inr (b', [transfer_to_lose; record_release_time; transfer_to_lose])
       /\ Button.state b' = true.
Proof.
  cbn zeta. split; [reflexivity|]. split; [reflexivity|].
  destruct (button_edges_alternate [0; 0; 1; 1; 0]
              (Button.set_on_released record_release_time
                 (Button.set_on_pressed transfer_to_lose
                    (fst (Button.start up_left_button Button.new []))))
              eq_refl)
    as (b' & Hloop & _ & _ & _ & _ & Hstate).
  exists b'. split; [exact Hloop|exact Hstate].
Defined.

(** ** DigitalDisplay: [set_time] and the loop from any state *)

Lemma set_time_spec (second minute : Z) (d : DigitalDisplay.t) :
  0 <= DigitalDisplay.second (DigitalDisplay.set_time second minute d) <= 59
  /\ DigitalDisplay.duration
       (DigitalDisplay.minute (DigitalDisplay.set_time second minute d))
       (DigitalDisplay.second (DigitalDisplay.set_time second minute d))
     = DigitalDisplay.duration minute second
  /\ (0 <= second -> 0 <= minute ->
      0 <= DigitalDisplay.minute (DigitalDisplay.set_time second minute d)).
Proof.
  unfold DigitalDisplay.set_time, divmod, DigitalDisplay.duration.
  cbn [DigitalDisplay.with_time DigitalDisplay.second DigitalDisplay.minute].
  pose proof (Z.mod_pos_bound second 60 ltac:(lia)).
  pose proof (Z.div_mod second 60 ltac:(lia)).
  repeat split; lia.
Qed.

(** X5.  [set_time] normalises: whatever seconds and minutes it is given
    (negative ones included), the stored second lies in 0..59 and the
    stored pair stands for the same duration, 60 * minute + second; the
    other fields are left alone.  Non-negative arguments give a
    non-negative minute. *)
Theorem set_time_normalises (second minute : Z) (d : DigitalDisplay.t) :
  let d' := DigitalDisplay.set_time second minute d in
  0 <= DigitalDisplay.second d' <= 59
  /\ DigitalDisplay.duration (DigitalDisplay.minute d') (DigitalDisplay.second d')
     = DigitalDisplay.duration minute second
  /\ DigitalDisplay.base d' = DigitalDisplay.base d
  /\ DigitalDisplay.timeup_callback d' = DigitalDisplay.timeup_callback d
  /\ DigitalDisplay.is_pause d' = DigitalDisplay.is_pause d
  /\ DigitalDisplay.is_show d' = DigitalDisplay.is_show d
  /\ (0 <= second -> 0 <= minute -> 0 <= DigitalDisplay.minute d').
Proof.
  cbn zeta. destruct (set_time_spec second minute d) as (H1 & H2 & H3).
  repeat split; try assumption; try apply H1.
Qed.

Lemma set_time_normalises_witness :
  0 <= DigitalDisplay.minute (DigitalDisplay.set_time 180 0 DigitalDisplay.new).
Proof.
  apply (set_time_normalises 180 0 DigitalDisplay.new); lia.
Defined.

Section DisplayMore.
Import DigitalDisplay.

Lemma loop_body_in_range (d : t) :
  0 <= minute d -> 0 <= second d <= 59 ->
  0 <= minute (snd (loop_body d))
  /\ 0 <= second (snd (loop_body d)) <= 59
  /\ Forall (fun p => 0 <= fst p /\ 0 <= snd p <= 59) (renders (fst (loop_body d)))
  /\ is_pause (snd (loop_body d)) = is_pause d
  /\ timeup_callback (snd (loop_body d)) = timeup_callback d
  /\ AsyncLooping.loop_task (base (snd (loop_body d))) = AsyncLooping.loop_task (base d).
Proof.
  intros Hm Hs. unfold loop_body.
  destruct (is_pause d) eqn:Hp.
  - unfold blink. cbn [is_show with_show].
    destruct (negb (is_show d)); cbn; repeat split; try lia; try assumption;
      repeat (apply Forall_cons; [cbn; lia|]); apply Forall_nil.
  - destruct (tick_face d Hs) as (m1 & s1 & Hm1 & Hs1 & _ & Ht). rewrite Ht.
    unfold expire. cbn [second minute with_time timeup_callback].
    destruct ((s1 =? 0) && (m1 =? 0)).
    + cbn. destruct (timeup_callback d) eqn:Hcb; cbn; repeat split; try lia;
        try assumption;
        repeat (apply Forall_cons; [cbn; lia|]); apply Forall_nil.
    + cbn. repeat split; try lia; try assumption;
        repeat (apply Forall_cons; [cbn; lia|]); apply Forall_nil.
Qed.
End DisplayMore.

Section DisplayMore2.
Import DigitalDisplay.

Lemma loop_in_range (fuel : nat) :
  forall d : t,
    0 <= minute d -> 0 <= second d <= 59 ->
    0 <= minute (snd (loop fuel d))
    /\ 0 <= second (snd (loop fuel d)) <= 59
    /\ Forall (fun p => 0 <= fst p /\ 0 <= snd p <= 59) (renders (fst (loop fuel d)))
    /\ is_pause (snd (loop fuel d)) = is_pause d
    /\ timeup_callback (snd (loop fuel d)) = timeup_callback d
    /\ AsyncLooping.loop_task (base (snd (loop fuel d)))
       = AsyncLooping.loop_task (base d).
Proof.
  induction fuel as [|fuel IH]; intros d Hm Hs.
  - cbn. repeat split; try lia. constructor.
  - destruct (loop_runing d) eqn:Hr.
    + rewrite (loop_step _ _ Hr). cbn [fst snd].
      destruct (loop_body_in_range d Hm Hs) as (B1 & B2 & B3 & B4 & B5 & B6).
      destruct (IH (snd (loop_body d)) B1 B2) as (I1 & I2 & I3 & I4 & I5 & I6).
      repeat split; try lia; try congruence.
      assert (Hr2 : forall a b, renders (a ++ b) = renders a ++ renders b).
      { induction a as [|[| | |] a IHa]; intros b; cbn; rewrite ?IHa; reflexivity. }
      rewrite Hr2. apply Forall_app. split; assumption.
    + rewrite (loop_stopped _ _ Hr). cbn. repeat split; try lia. constructor.
Qed.
End DisplayMore2.

(** X6.  The display never shows a time out of range.  From any display
    whose minute is not negative and whose second lies in 0..59, paused
    or running, after any number of loop passes (whether or not the loop
    has stopped by then) every pair rendered and the pair stored have a
    minute that is not negative and a second in 0..59; and the loop
    itself never changes the paused flag, the callback or the task
    handle. *)
Theorem display_stays_in_range (fuel : nat) (d : DigitalDisplay.t) :
  0 <= DigitalDisplay.minute d -> 0 <= DigitalDisplay.second d <= 59 ->
  let r := DigitalDisplay.loop fuel d in
  0 <= DigitalDisplay.minute (snd r)
  /\ 0 <= DigitalDisplay.second (snd r) <= 59
  /\ Forall (fun p => 0 <= fst p /\ 0 <= snd p <= 59) (DigitalDisplay.renders (fst r))
  /\ DigitalDisplay.is_pause (snd r) = DigitalDisplay.is_pause d
  /\ DigitalDisplay.timeup_callback (snd r) = DigitalDisplay.timeup_callback d
  /\ AsyncLooping.loop_task (DigitalDisplay.base (snd r))
     = AsyncLooping.loop_task (DigitalDisplay.base d).
Proof.
  intros Hm Hs. exact (loop_in_range fuel d Hm Hs).
Qed.

Lemma display_stays_in_range_witness :
  0 <= DigitalDisplay.minute (snd (DigitalDisplay.loop 7 (armed 5 transfer_to_lose))).
Proof.
  apply (display_stays_in_range 7 (armed 5 transfer_to_lose)); cbn; lia.
Defined.

Section DisplayAnyState.
Import DigitalDisplay.

Lemma running_pass_any (d : t) :
  is_pause d = false ->
  0 <= second d <= 59 ->
  exists m s,
    0 <= m /\ 0 <= s <= 59
    /\ (0 <= minute d -> 1 <= duration (minute d) (second d) ->
        duration m s = duration (minute d) (second d) - 1)
    /\ loop_body d
       = ([numbers m s; sleep 1]
            ++ (if duration m s =? 0
                then match timeup_callback d with
                     | Some cb => [timeup cb]
                     | None => []
                     end
                else []),
          if duration m s =? 0 then run_down d else with_time m s d).
Proof.
  intros Hp Hs.
  destruct (tick_face d Hs) as (m1 & s1 & Hm1 & Hs1 & Hdur & Ht).
  exists m1, s1. repeat split; try lia; try assumption.
  unfold loop_body. rewrite Hp, Ht.
  unfold expire. cbn [second minute with_time timeup_callback].
  unfold duration.
  destruct (Z.eqb_spec s1 0) as [E1|E1];
    destruct (Z.eqb_spec m1 0) as [E2|E2]; cbn [andb];
    destruct (Z.eqb_spec (60 * m1 + s1) 0) as [E|E]; try lia; try reflexivity.
  unfold run_down, with_base, with_time. cbn.
  destruct (timeup_callback d); rewrite E1, E2; reflexivity.
Qed.

Lemma countdown_trace_succ (k : nat) (cb : option callback) (m s : Z) :
  0 <= s <= 59 -> duration m s = Z.of_nat (S k) ->
  [numbers m s; sleep 1] ++ countdown_trace k cb = countdown_trace (S k) cb.
Proof.
  intros Hs Hd. unfold countdown_trace. cbn [countdown flat_map].
  rewrite <- Hd, (clock_face_unique m s Hs). reflexivity.
Qed.

Lemma runs_down_from_opt (n : nat) :
  forall d : t,
    loop_runing d = true -> is_pause d = false ->
    0 <= minute d -> 0 <= second d <= 59 ->
    duration (minute d) (second d) = Z.of_nat n + 1 ->
    forall extra : nat,
      loop (S n + extra) d = (countdown_trace n (timeup_callback d), run_down d).
Proof.
  induction n as [|k IH]; intros d Hr Hp Hm Hs Hd extra;
    destruct (running_pass_any d Hp Hs) as (m & s & Hm1 & Hs1 & Hdur & Hb);
    specialize (Hdur Hm ltac:(lia)).
  - assert (E : duration m s = 0) by lia.
    rewrite E in Hb. cbn [Z.eqb] in Hb.
    cbn [plus]. rewrite (loop_step _ _ Hr), Hb. cbn [fst snd].
    rewrite loop_stopped by reflexivity. cbn [fst snd].
    unfold duration in E. assert (m = 0) by lia. assert (s = 0) by lia. subst m s.
    unfold countdown_trace. cbn. destruct (timeup_callback d); reflexivity.
  - assert (E : duration m s = Z.of_nat (S k)) by lia.
    destruct (Z.eqb_spec (duration m s) 0) as [E0|_]; [lia|].
    change (S (S k) + extra)%nat with (S (S k + extra)).
    rewrite (loop_step _ _ Hr), Hb. cbn [fst snd].
    rewrite (IH (with_time m s d)); cbn [fst snd]; try assumption; try (cbn; lia).
    rewrite app_nil_r. rewrite <- (countdown_trace_succ k _ m s Hs1 E).
    reflexivity.
Qed.

Lemma runs_down_any_opt (d : t) :
  loop_runing d = true -> is_pause d = false ->
  0 <= second d <= 59 ->
  exists n : nat,
    (0 <= minute d -> 1 <= duration (minute d) (second d) ->
     Z.of_nat n = duration (minute d) (second d) - 1)
    /\ forall extra : nat,
        loop (S n + extra) d = (countdown_trace n (timeup_callback d), run_down d).
Proof.
  intros Hr Hp Hs.
  destruct (running_pass_any d Hp Hs) as (m & s & Hm1 & Hs1 & Hdur & Hb).
  assert (Hnn : 0 <= duration m s) by (unfold duration; lia).
  exists (Z.to_nat (duration m s)). split; [intros H1 H2; specialize (Hdur H1 H2); lia|].
  intros extra.
  destruct (Z.to_nat (duration m s)) as [|k] eqn:En.
  - assert (E : duration m s = 0) by lia.
    rewrite E in Hb. cbn [Z.eqb] in Hb.
    cbn [plus]. rewrite (loop_step _ _ Hr), Hb. cbn [fst snd].
    rewrite loop_stopped by reflexivity. cbn [fst snd].
    unfold duration in E. assert (m = 0) by lia. assert (s = 0) by lia. subst m s.
    unfold countdown_trace. cbn. destruct (timeup_callback d); reflexivity.
  - assert (E : duration m s = Z.of_nat (S k)) by lia.
    destruct (Z.eqb_spec (duration m s) 0) as [E0|_]; [lia|].
    change (S (S k) + extra)%nat with (S (S k + extra)).
    rewrite (loop_step _ _ Hr), Hb. cbn [fst snd].
    rewrite (runs_down_from_opt k (with_time m s d));
      cbn [fst snd]; try assumption; try (cbn; lia).
    rewrite app_nil_r. rewrite <- (countdown_trace_succ k _ m s Hs1 E).
    reflexivity.
Qed.

Lemma timeups_countdown_trace (n : nat) (cb : option callback) :
  timeups (countdown_trace n cb)
  = match cb with Some _ => 1%nat | None => O end.
Proof.
  unfold countdown_trace.
  induction (countdown n) as [|d l IH]; cbn; [destruct cb; reflexivity|exact IH].
Qed.

Lemma renders_countdown_trace (n : nat) (cb : option callback) :
  renders (countdown_trace n cb) = map clock_face (countdown n).
Proof.
  unfold countdown_trace.
  induction (countdown n) as [|d l IH]; cbn [flat_map app renders map].
  - destruct cb; reflexivity.
  - rewrite IH. now destruct (clock_face d).
Qed.
End DisplayAnyState.

(** X7.  From any running, unpaused display whose second lies in 0..59
    - with or without a time-up callback, even with a negative minute -
    the loop stops by itself after finitely many passes, at 0:00, however
    many passes it is allowed.  It renders one clock face per second down
    to 0:00.  The callback is awaited once if there is one; a missing
    callback is skipped without error and the loop stops all the same.
    From a non-negative minute and a duration of at least one second the
    first render is one second below the stored pair. *)
Theorem display_runs_down_from_any_state (d : DigitalDisplay.t) :
  DigitalDisplay.loop_runing d = true ->
  DigitalDisplay.is_pause d = false ->
  0 <= DigitalDisplay.second d <= 59 ->
  exists n : nat,
    (0 <= DigitalDisplay.minute d ->
     1 <= DigitalDisplay.duration (DigitalDisplay.minute d) (DigitalDisplay.second d) ->
     Z.of_nat n
     = DigitalDisplay.duration (DigitalDisplay.minute d) (DigitalDisplay.second d) - 1)
    /\ forall extra : nat,
        let r := DigitalDisplay.loop (S n + extra) d in
        snd r = run_down d
        /\ DigitalDisplay.loop_runing (snd r) = false
        /\ fst r = countdown_trace n (DigitalDisplay.timeup_callback d)
        /\ DigitalDisplay.renders (fst r) = map clock_face (countdown n)
        /\ DigitalDisplay.timeups (fst r)
           = match DigitalDisplay.timeup_callback d with
             | Some _ => 1%nat
             | None => O
             end.
Proof.
  intros Hr Hp Hs.
  destruct (runs_down_any_opt d Hr Hp Hs) as (n & Hn & Hloop).
  exists n. split; [exact Hn|].
  intros extra. cbn zeta. rewrite Hloop. cbn [fst snd].
  rewrite renders_countdown_trace, timeups_countdown_trace.
  repeat split.
Qed.

Lemma display_runs_down_from_any_state_witness :
  exists n : nat,
    forall extra : nat,
      DigitalDisplay.timeups
        (fst (DigitalDisplay.loop (S n + extra)
                (fst (DigitalDisplay.start
                        (DigitalDisplay.set_time 90 0 DigitalDisplay.new) []))))
      = O.
Proof.
  destruct (display_runs_down_from_any_state
              (fst (DigitalDisplay.start
                      (DigitalDisplay.set_time 90 0 DigitalDisplay.new) []))
              eq_refl eq_refl ltac:(cbn; lia)) as (n & _ & H).
  exists n. intros extra. exact (proj2 (proj2 (proj2 (proj2 (H extra))))).
Defined.

(** ** More about the rounds of [morse] *)

Ltac open_world w :=
  destruct w as [[[?a ?s ?p ?r] [?a ?s ?p ?r] [?a ?s ?p ?r] [?a ?s ?p ?r]]
                   ?dd [?tql ?tqe] ?tmq ?pt ?tk ?en ?dr ?cl ?pd].

(** A round in which the first thing seen is a press of another button:
    the round returns from [morse] with Game_over queued by that press
    and nothing else; the timing queue is still empty. *)
Lemma morse_round_preempted (w : world) (long : Z) (b b' : button) (t : Q)
  (rest : list (list activity)) :
  b' <> b ->
  Button.state (buttons w b') = false ->
  SimpleQueue._queue (transfer_queue w) = [] ->
  pending w = [at_time t (button_polls b' 0)] :: rest ->
  exists w',
    morse_round long b w = Ret Returned w'
    /\ outcomes w' = [Game_over]
    /\ pending w' = rest
    /\ SimpleQueue._queue (time_queue w') = [].
Proof.
  intros Hne Hst Hq Hpend. open_world w.
  cbn [pending transfer_queue SimpleQueue._queue] in Hq, Hpend. subst.
  destruct b, b'; try (exfalso; apply Hne; reflexivity); cbn in Hst; subst.
  all: vm_compute; eexists; repeat split; reflexivity.
Qed.

(** The same when the display's time-up callback fires first. *)
Lemma morse_round_timed_out (w : world) (long : Z) (b : button) (t : Q)
  (rest : list (list activity)) :
  DigitalDisplay.timeup_callback (digital_display w) = Some transfer_to_lose ->
  SimpleQueue._queue (transfer_queue w) = [] ->
  pending w = [at_time t display_times_up] :: rest ->
  exists w',
    morse_round long b w = Ret Returned w'
    /\ outcomes w' = [Game_over]
    /\ pending w' = rest.
Proof.
  intros Hcb Hq Hpend. open_world w.
  destruct dd as [db dm ds dcb dp dsh].
  cbn [pending transfer_queue SimpleQueue._queue digital_display
       DigitalDisplay.timeup_callback] in Hcb, Hq, Hpend. subst.
  destruct b; vm_compute; eexists; repeat split; reflexivity.
Qed.

(** A round that begins while the previous button [b0] is still held:
    its release arrives first and is recorded, because the released
    callback of [b0] is never reset and writes to the current timing
    queue.  The round discards that record and judges the press and
    release of its own button. *)
Lemma morse_round_discards_stray_release
  (w : world) (long : Z) (b b0 : button) (t0 p r : Q)
  (rest : list (list activity)) :
  b0 <> b ->
  Button.state (buttons w b0) = true ->
  Button.on_released (buttons w b0) = Some record_release_time ->
  Button.state (buttons w b) = false ->
  SimpleQueue._queue (transfer_queue w) = [] ->
  pending w = [[at_time t0 (button_polls b0 1)];
               [at_time p (button_polls b 0)];
               [at_time r (button_polls b 1)]] ++ rest ->
  exists w',
    morse_round long b w = Ret Continue w'
    /\ pending w' = rest
    /\ outcomes w'
       = (if negb (Z.lxor long (Z.b2z (Qgt_bool (Qabs (r - p)) 0.5)) =? 0)
          then [Game_over] else []).
Proof.
  intros Hne Hst0 Hon0 Hst Hq Hpend. open_world w.
  cbn [pending transfer_queue SimpleQueue._queue] in Hq, Hpend. subst.
  destruct b, b0; try (exfalso; apply Hne; reflexivity);
    cbn in Hst0, Hon0, Hst; subst.
  all: vm_compute.
  all: match goal with
       | |- context [match ?c with true => _ | false => _ end] => destruct c
       end.
  all: eexists; repeat split; reflexivity.
Qed.

(** A round in which, after the press of its own button, the release of
    the previous button [b0] arrives before its own: the two records are
    paired without looking at their labels' origin, so the hold is
    measured from the press of [b] to the release of [b0], and the round
    ends with [b] still held. *)
Lemma morse_round_pairs_foreign_release
  (w : world) (long : Z) (b b0 : button) (t0 p : Q)
  (rest : list (list activity)) :
  b0 <> b ->
  Button.state (buttons w b0) = true ->
  Button.on_released (buttons w b0) = Some record_release_time ->
  Button.state (buttons w b) = false ->
  SimpleQueue._queue (transfer_queue w) = [] ->
  pending w = [[at_time p (button_polls b 0)];
               [at_time t0 (button_polls b0 1)]] ++ rest ->
  exists w',
    morse_round long b w = Ret Continue w'
    /\ pending w' = rest
    /\ Button.state (buttons w' b) = true
    /\ outcomes w'
       = (if negb (Z.lxor long (Z.b2z (Qgt_bool (Qabs (t0 - p)) 0.5)) =? 0)
          then [Game_over] else []).
Proof.
  intros Hne Hst0 Hon0 Hst Hq Hpend. open_world w.
  cbn [pending transfer_queue SimpleQueue._queue] in Hq, Hpend. subst.
  destruct b, b0; try (exfalso; apply Hne; reflexivity);
    cbn in Hst0, Hon0, Hst; subst.
  all: vm_compute.
  all: match goal with
       | |- context [match ?c with true => _ | false => _ end] => destruct c
       end.
  all: eexists; repeat split; reflexivity.
Qed.

(** A round that begins while its own button is still held (it was the
    one that started the game): the release arrives first and is
    recorded; the round discards it and judges the next press and
    release. *)
Lemma morse_round_discards_own_release
  (w : world) (long : Z) (b : button) (t0 p r : Q)
  (rest : list (list activity)) :
  Button.state (buttons w b) = true ->
  SimpleQueue._queue (transfer_queue w) = [] ->
  pending w = [[at_time t0 (button_polls b 1)];
               [at_time p (button_polls b 0)];
               [at_time r (button_polls b 1)]] ++ rest ->
  exists w',
    morse_round long b w = Ret Continue w'
    /\ pending w' = rest
    /\ outcomes w'
       = (if negb (Z.lxor long (Z.b2z (Qgt_bool (Qabs (r - p)) 0.5)) =? 0)
          then [Game_over] else []).
Proof.
  intros Hst Hq Hpend. open_world w.
  cbn [pending transfer_queue SimpleQueue._queue] in Hq, Hpend. subst.
  destruct b; cbn in Hst; subst.
  all: vm_compute.
  all: match goal with
       | |- context [match ?c with true => _ | false => _ end] => destruct c
       end.
  all: eexists; repeat split; reflexivity.
Qed.

(** Entering the long-code mode: the code has four symbols and the
    rounds run in the world that the draws and the hint task leave,
    which differs from the initial one only in the draw counter, the
    task list and [play_task]. *)
Lemma morse_long_mode (w : world) :
  randint_of 0 1 (entropy w (drawn w)) = 1 ->
  exists c0 c1 c2 c3 w0,
    draw_code (set_drawn (S (drawn w)) w)
    = Ret [c0; c1; c2; c3] (set_drawn (5 + S (drawn w)) w)
    /\ morse w
       = (c <- morse_for [(c0, up_left_button); (c1, down_right_button);
                          (c2, up_right_button); (c3, down_left_button)] ;;
          match c with
          | Returned => ret tt
          | Continue => await_callback transfer_to_win
          end) w0
    /\ panel w0 = panel w
    /\ transfer_queue w0 = transfer_queue w
    /\ digital_display w0 = digital_display w
    /\ pending w0 = pending w.
Proof.
  intros Hmode.
  destruct (draw_code_spec (set_drawn (S (drawn w)) w))
    as (code & Hdraw & Hlen & _).
  destruct code as [|c0 [|c1 [|c2 [|c3 [|c4 code]]]]]; try discriminate.
  exists c0, c1, c2, c3. eexists. split; [exact Hdraw|]. split.
  - unfold morse. cbv beta iota delta [bind randint].
    rewrite Hmode, Hdraw. cbv beta iota.
    change (1 =? 0) with false. change (1 =? 1) with true. cbv beta iota.
    unfold create_play_task, modify, ret. cbv beta iota.
    reflexivity.
  - repeat split.
Qed.

Lemma all_released_after (w w' : world) :
  (forall b, Button.state (buttons w b) = false) ->
  (forall b, Button.state (buttons w' b) = Button.state (buttons w b)) ->
  forall b, Button.state (buttons w' b) = false.
Proof.
  intros H H' b. now rewrite H'.
Qed.

Lemma morse_for_rounds_end (pairs : list (Z * button)) :
  forall (holds : list (Q * Q)) (w : world) (rest : list (list activity)),
    List.length holds = List.length pairs ->
    (forall b, Button.state (buttons w b) = false) ->
    SimpleQueue._queue (transfer_queue w) = [] ->
    pending w = round_presses pairs holds ++ rest ->
    exists w',
      morse_for pairs w = Ret (fst (rounds_end pairs holds)) w'
      /\ outcomes w' = snd (rounds_end pairs holds)
      /\ (holds_agree pairs holds = true -> pending w' = rest).
Proof.
  induction pairs as [|[long b] pairs IH]; intros holds w rest Hlen Hst Hq Hpend.
  - exists w. destruct holds; [|discriminate]. cbn in *. unfold outcomes.
    repeat split; try assumption. intros _. assumption.
  - destruct holds as [|[p r] holds]; [discriminate|].
    cbn [round_presses press_release fst snd] in Hpend.
    rewrite <- app_assoc in Hpend.
    destruct (morse_round_verdict w long b p r _ (Hst b) Hq Hpend)
      as (w1 & Hrun & Hp1 & Hout & Hst1).
    cbn [rounds_end holds_agree]. unfold hold_agrees. cbn [fst snd].
    cbn [morse_for]. unfold bind at 1. rewrite Hrun.
    destruct (Z.lxor long (Z.b2z (Qgt_bool (Qabs (r - p)) 0.5)) =? 0) eqn:Hag;
      cbn [negb] in Hout.
    + destruct (IH holds w1 rest ltac:(cbn in Hlen; lia)
                  (all_released_after w w1 Hst Hst1) Hout Hp1)
        as (w2 & Hrun2 & Hout2 & Hp2).
      exists w2. split; [exact Hrun2|split; [exact Hout2|]].
      intros H. apply Hp2. exact H.
    + destruct pairs as [|[long2 b2] pairs].
      * exists w1. cbn. repeat split; try assumption. discriminate.
      * destruct (morse_round_yields w1 long2 b2 Game_over [] Hout)
          as (w2 & Hrun2 & Hout2 & _).
        exists w2. cbn [morse_for]. unfold bind. rewrite Hrun2.
        cbn. repeat split; try assumption. discriminate.
Qed.

(** X8.  The long-code mode of [morse] when each of the four buttons is
    pressed and released in turn.  If every hold has the length class of
    its symbol, [morse] returns with exactly Game_win queued.  Otherwise
    Game_over is queued at the first symbol that fails; if that is one of
    the first three, the next round sees it and [morse] returns with
    Game_over alone, and if it is the fourth, Game_win follows it. *)
Theorem morse_long_code_outcomes
  (w w1 : world) (code : list Z) (holds : list (Q * Q))
  (rest : list (list activity)) :
  randint_of 0 1 (entropy w (drawn w)) = 1 ->
  draw_code (set_drawn (S (drawn w)) w) = Ret code w1 ->
  List.length holds = 4%nat ->
  (forall b, Button.state (buttons w b) = false) ->
  SimpleQueue._queue (transfer_queue w) = [] ->
  pending w = round_presses (combine code morse_buttons) holds ++ rest ->
  exists w',
    morse w = Ret tt w'
    /\ outcomes w'
       = snd (rounds_end (combine code morse_buttons) holds)
         ++ match fst (rounds_end (combine code morse_buttons) holds) with
            | Continue => [Game_win]
            | Returned => []
            end
    /\ (holds_agree (combine code morse_buttons) holds = true ->
        outcomes w' = [Game_win] /\ pending w' = rest).
Proof.
  intros Hmode Hcode Hlen Hst Hq Hpend.
  destruct (morse_long_mode w Hmode)
    as (c0 & c1 & c2 & c3 & w0 & Hdraw & Hrun & Hpanel & Htq & _ & Hpend0).
  rewrite Hdraw in Hcode. injection Hcode as <- _.
  change (combine [c0; c1; c2; c3] morse_buttons)
    with [(c0, up_left_button); (c1, down_right_button);
          (c2, up_right_button); (c3, down_left_button)] in *.
  set (pairs := [(c0, up_left_button); (c1, down_right_button);
                 (c2, up_right_button); (c3, down_left_button)]) in *.
  assert (Hst0 : forall b, Button.state (buttons w0 b) = false).
  { intros b. specialize (Hst b). unfold buttons in *. rewrite Hpanel. exact Hst. }
  assert (Hq0 : SimpleQueue._queue (transfer_queue w0) = []) by (now rewrite Htq).
  rewrite <- Hpend0 in Hpend.
  destruct (morse_for_rounds_end pairs holds w0 rest Hlen Hst0 Hq0 Hpend)
    as (w2 & Hfor & Hout & Hp).
  rewrite Hrun. unfold bind. rewrite Hfor.
  assert (Hall : holds_agree pairs holds = true ->
                 rounds_end pairs holds = (Continue, [])).
  { clear. generalize holds. induction pairs as [|[long b] ps IH]; intros hs H.
    - destruct hs; reflexivity.
    - destruct hs as [|h hs]; [discriminate|]. cbn in H |- *.
      apply andb_true_iff in H. destruct H as [H1 H2]. rewrite H1. now apply IH. }
  destruct (fst (rounds_end pairs holds)) eqn:Hc.
  - eexists. split; [reflexivity|]. split.
    + unfold outcomes in *. cbn. rewrite Hout. reflexivity.
    + intros Hag. rewrite (Hall Hag) in Hout. unfold outcomes in *. cbn.
      rewrite Hout. split; [reflexivity|]. apply Hp, Hag.
  - exists w2. split; [reflexivity|]. split.
    + now rewrite app_nil_r.
    + intros Hag. rewrite (Hall Hag) in Hc. discriminate.
Qed.

Lemma morse_long_code_outcomes_witness :
  outcomes (final_world (morse last_symbol_miss)) = [Game_over; Game_win].
Proof.
  destruct (morse_long_code_outcomes last_symbol_miss
              (set_drawn 6 last_symbol_miss) [0; 0; 0; 1]
              [(1, 1 + 0.2); (2, 2 + 0.2); (3, 3 + 0.2); (4, 4 + 0.2)]%Q []
              eq_refl eq_refl eq_refl
              (fun b => match b with
                        | up_left_button | up_right_button
                        | down_left_button | down_right_button => eq_refl
                        end)
              eq_refl eq_refl)
    as (w' & Hrun & Hout & _).
  rewrite Hrun. exact Hout.
Defined.

Lemma morse_for_preempted (pre : list (Z * button)) :
  forall (holds : list (Q * Q)) (w : world) (long : Z) (b b' : button) (t : Q)
         (post : list (Z * button)) (rest : list (list activity)),
    List.length holds = List.length pre ->
    holds_agree pre holds = true ->
    b' <> b ->
    (forall x, In x (b' :: map snd pre) -> Button.state (buttons w x) = false) ->
    SimpleQueue._queue (transfer_queue w) = [] ->
    pending w = round_presses pre holds ++ [at_time t (button_polls b' 0)] :: rest ->
    exists w',
      morse_for (pre ++ (long, b) :: post) w = Ret Returned w'
      /\ outcomes w' = [Game_over]
      /\ pending w' = rest.
Proof.
  induction pre as [|[l0 b0] pre IH];
    intros holds w long b b' t post rest Hlen Hag Hne Hst Hq Hpend.
  - destruct holds; [|discriminate]. cbn [round_presses app] in Hpend.
    destruct (morse_round_preempted w long b b' t rest Hne
                (Hst b' (or_introl eq_refl)) Hq Hpend)
      as (w1 & Hrun & Hout & Hp & _).
    exists w1. cbn [app morse_for]. unfold bind. rewrite Hrun.
    repeat split; assumption.
  - destruct holds as [|[p r] holds]; [discriminate|].
    cbn [round_presses press_release fst snd] in Hpend.
    rewrite <- !app_assoc in Hpend.
    cbn [holds_agree] in Hag. apply andb_true_iff in Hag. destruct Hag as [Ha Hag].
    unfold hold_agrees in Ha. cbn [fst snd] in Ha.
    destruct (morse_round_verdict w l0 b0 p r _
                (Hst b0 (or_intror (or_introl eq_refl))) Hq Hpend)
      as (w1 & Hrun & Hp1 & Hout & Hst1).
    rewrite Ha in Hout. cbn [negb] in Hout.
    assert (Hst' : forall x, In x (b' :: map snd pre) ->
                             Button.state (buttons w1 x) = false).
    { intros x Hx. rewrite Hst1. apply Hst.
      destruct Hx as [Hx|Hx]; [left; exact Hx|right; right; exact Hx]. }
    destruct (IH holds w1 long b b' t post rest ltac:(cbn in Hlen; lia) Hag Hne
                Hst' Hout Hp1)
      as (w2 & Hrun2 & Hout2 & Hp2).
    exists w2. cbn [app morse_for]. unfold bind at 1. rewrite Hrun.
    repeat split; assumption.
Qed.

Lemma nth_error_cut {A : Type} (l : list A) :
  forall (k : nat) (x : A),
    nth_error l k = Some x ->
    l = firstn k l ++ x :: skipn (S k) l /\ List.length (firstn k l) = k.
Proof.
  induction l as [|y l IH]; intros k x Hk; destruct k; try discriminate.
  - cbn in Hk. injection Hk as ->. split; reflexivity.
  - cbn in Hk. destruct (IH k x Hk) as [H1 H2]. cbn [firstn skipn app List.length].
    split; [f_equal; exact H1|now rewrite H2].
Qed.

(** X9.  Pre-emption in the long-code mode of [morse].  After any number
    [k] (0 to 3) of rounds passed, a press of a button other than the one
    whose turn it is makes [morse] return without raising, with the
    Game_over of that press as the only outcome queued: no second
    outcome, and the timing queue is not read.  Only the buttons that
    are pressed - those of the [k] rounds passed and the wrong one -
    have to be released when [morse] begins; any other button, such as
    the start button or the one whose turn it is, may still be held. *)
Theorem morse_preempted_returns
  (w w1 : world) (code : list Z) (k : nat) (long : Z) (b b' : button) (t : Q)
  (holds : list (Q * Q)) (rest : list (list activity)) :
  randint_of 0 1 (entropy w (drawn w)) = 1 ->
  draw_code (set_drawn (S (drawn w)) w) = Ret code w1 ->
  nth_error (combine code morse_buttons) k = Some (long, b) ->
  List.length holds = k ->
  holds_agree (firstn k (combine code morse_buttons)) holds = true ->
  b' <> b ->
  (forall x, In x (b' :: firstn k morse_buttons) ->
             Button.state (buttons w x) = false) ->
  SimpleQueue._queue (transfer_queue w) = [] ->
  pending w = round_presses (firstn k (combine code morse_buttons)) holds
              ++ [at_time t (button_polls b' 0)] :: rest ->
  exists w',
    morse w = Ret tt w'
    /\ outcomes w' = [Game_over]
    /\ pending w' = rest.
Proof.
  intros Hmode Hcode Hk Hlen Hag Hne Hst Hq Hpend.
  destruct (morse_long_mode w Hmode)
    as (c0 & c1 & c2 & c3 & w0 & Hdraw & Hrun & Hpanel & Htq & _ & Hpend0).
  rewrite Hdraw in Hcode. injection Hcode as <- _.
  change (combine [c0; c1; c2; c3] morse_buttons)
    with [(c0, up_left_button); (c1, down_right_button);
          (c2, up_right_button); (c3, down_left_button)] in *.
  set (pairs := [(c0, up_left_button); (c1, down_right_button);
                 (c2, up_right_button); (c3, down_left_button)]) in *.
  assert (Hbs : map snd (firstn k pairs) = firstn k morse_buttons).
  { change morse_buttons with (map snd pairs). clear.
    generalize pairs. induction k as [|k IH]; intros [|x l]; cbn; congruence. }
  assert (Hst0 : forall x, In x (b' :: map snd (firstn k pairs)) ->
                           Button.state (buttons w0 x) = false).
  { intros x Hx. rewrite Hbs in Hx. specialize (Hst x Hx).
    unfold buttons in *. rewrite Hpanel. exact Hst. }
  assert (Hq0 : SimpleQueue._queue (transfer_queue w0) = []) by (now rewrite Htq).
  rewrite <- Hpend0 in Hpend.
  destruct (nth_error_cut pairs k (long, b) Hk) as [Hsplit Hfirst].
  destruct (morse_for_preempted (firstn k pairs) holds w0 long b b' t
              (skipn (S k) pairs) rest ltac:(lia) Hag Hne Hst0 Hq0 Hpend)
    as (w2 & Hfor & Hout & Hp).
  rewrite <- Hsplit in Hfor.
  exists w2. rewrite Hrun. unfold bind. rewrite Hfor.
  repeat split; assumption.
Qed.

Lemma morse_preempted_returns_witness :
  challenge_through_main
    (entropy_of [1; 1; 1; 0; 0; 0; 1; 3])
    (tap up_left_button 2 0.2 ++ [[at_time 3 (button_polls down_left_button 0)]])
  = Some (up_right_button, Morse, held_start_wrong_press)
  /\ Button.state (buttons held_start_wrong_press up_right_button) = true
  /\ outcomes (final_world (morse held_start_wrong_press)) = [Game_over].
Proof.
  split; [vm_compute; reflexivity|]. split; [vm_compute; reflexivity|].
  assert (Hmode : randint_of 0 1 (entropy held_start_wrong_press
                                    (drawn held_start_wrong_press)) = 1)
    by (vm_compute; reflexivity).
  assert (Hcode : draw_code (set_drawn (S (drawn held_start_wrong_press))
                               held_start_wrong_press)
                  = Ret [0; 0; 0; 1] (set_drawn 8 held_start_wrong_press))
    by (vm_compute; reflexivity).
  assert (Hst : forall x, In x (down_left_button :: firstn 1 morse_buttons) ->
                          Button.state (buttons held_start_wrong_press x) = false).
  { intros x [<-|[<-|[]]]; vm_compute; reflexivity. }
  assert (Hq : SimpleQueue._queue (transfer_queue held_start_wrong_press) = [])
    by (vm_compute; reflexivity).
  assert (Hpend : pending held_start_wrong_press
                  = round_presses (firstn 1 (combine [0; 0; 0; 1] morse_buttons))
                      [(2, 2 + 0.2)%Q]
                    ++ [at_time 3 (button_polls down_left_button 0)] :: [])
    by (vm_compute; reflexivity).
  destruct (morse_preempted_returns
              held_start_wrong_press (set_drawn 8 held_start_wrong_press)
              [0; 0; 0; 1] 1 0 down_right_button down_left_button 3
              [(2, 2 + 0.2)%Q] []
              Hmode Hcode eq_refl eq_refl eq_refl ltac:(discriminate) Hst Hq Hpend)
    as (w' & Hrun & Hout & _).
  rewrite Hrun. exact Hout.
Defined.

(** X10.  A long-code round that begins while its own button is still
    held (for instance because that button started the game): the
    release arrives first and is recorded.  The round discards that
    record and judges the press and release that follow, exactly as if
    the button had not been held. *)
Theorem morse_round_discards_leading_release
  (w : world) (long : Z) (b : button) (t0 p r : Q)
  (rest : list (list activity)) :
  Button.state (buttons w b) = true ->
  SimpleQueue._queue (transfer_queue w) = [] ->
  pending w = [[at_time t0 (button_polls b 1)];
               [at_time p (button_polls b 0)];
               [at_time r (button_polls b 1)]] ++ rest ->
  exists w',
    morse_round long b w = Ret Continue w'
    /\ pending w' = rest
    /\ outcomes w'
       = (if negb (Z.lxor long (Z.b2z (Qgt_bool (Qabs (r - p)) 0.5)) =? 0)
          then [Game_over] else []).
Proof.
  exact (morse_round_discards_own_release w long b t0 p r rest).
Qed.

Lemma morse_round_discards_leading_release_witness :
  outcomes
    (final_world
       (morse_round 1 up_left_button
          (run_activity (at_time 0 (button_polls up_left_button 0))
             (boot (entropy_of [])
                [[at_time 0.3 (button_polls up_left_button 1)];
                 [at_time 1 (button_polls up_left_button 0)];
                 [at_time 1.8 (button_polls up_left_button 1)]]))))
  = [].
Proof.
  destruct (morse_round_discards_leading_release
              (run_activity (at_time 0 (button_polls up_left_button 0))
                 (boot (entropy_of [])
                    [[at_time 0.3 (button_polls up_left_button 1)];
                     [at_time 1 (button_polls up_left_button 0)];
                     [at_time 1.8 (button_polls up_left_button 1)]]))
              1 up_left_button 0.3 1 1.8 [] eq_refl eq_refl eq_refl)
    as (w' & Hrun & _ & Hout).
  rewrite Hrun. exact Hout.
Defined.

(** X11.  The timing records are paired without regard to the button
    they come from.  If a previously held button [b0], whose released
    callback still records, is released after the press of the round's
    own button [b] and before its release, the round measures the hold
    from the press of [b] to the release of [b0] and is over while [b]
    is still held. *)
Theorem morse_round_pairs_any_release
  (w : world) (long : Z) (b b0 : button) (t0 p : Q)
  (rest : list (list activity)) :
  b0 <> b ->
  Button.state (buttons w b0) = true ->
  Button.on_released (buttons w b0) = Some record_release_time ->
  Button.state (buttons w b) = false ->
  SimpleQueue._queue (transfer_queue w) = [] ->
  pending w = [[at_time p (button_polls b 0)];
               [at_time t0 (button_polls b0 1)]] ++ rest ->
  exists w',
    morse_round long b w = Ret Continue w'
    /\ pending w' = rest
    /\ Button.state (buttons w' b) = true
    /\ outcomes w'
       = (if negb (Z.lxor long (Z.b2z (Qgt_bool (Qabs (t0 - p)) 0.5)) =? 0)
          then [Game_over] else []).
Proof.
  exact (morse_round_pairs_foreign_release w long b b0 t0 p rest).
Qed.

Lemma morse_round_pairs_any_release_witness :
  outcomes
    (final_world
       (morse_round 1 down_right_button
          (update_button up_left_button
             (fun self => Button.set_on_released record_release_time self)
             (run_activity (at_time 0 (button_polls up_left_button 0))
                (boot (entropy_of [])
                   [[at_time 1 (button_polls down_right_button 0)];
                    [at_time 1.1 (button_polls up_left_button 1)]])))))
  = [Game_over].
Proof.
  destruct (morse_round_pairs_any_release
              (update_button up_left_button
                 (fun self => Button.set_on_released record_release_time self)
                 (run_activity (at_time 0 (button_polls up_left_button 0))
                    (boot (entropy_of [])
                       [[at_time 1 (button_polls down_right_button 0)];
                        [at_time 1.1 (button_polls up_left_button 1)]])))
              1 down_right_button up_left_button 1.1 1 []
              ltac:(discriminate) eq_refl eq_refl eq_refl eq_refl eq_refl)
    as (w' & Hrun & _ & _ & Hout).
  rewrite Hrun. exact Hout.
Defined.

(** ** More about [pitch] *)

(** X12.  In the high-low mode of [pitch] (mode draw 1) no timing is
    involved: [pitch] returns at once with the down-left button (column
    draw 0) or the up-right button (column draw 1) wired to
    [transfer_to_win] and the three others to [transfer_to_lose]; the
    queues are untouched, and a press then seen on a released button
    queues Game_win for that button and Game_over for any other. *)
Theorem pitch_high_low_wiring (w : world) :
  let right := randint_of 0 1 (entropy w (S (S (S (drawn w))))) in
  randint_of 0 1 (entropy w (drawn w)) = 1 ->
  exists b w',
    getitem [down_left_button; up_right_button] right = Some b
    /\ b = (if right =? 0 then down_left_button else up_right_button)
    /\ pitch w = Ret tt w'
    /\ (forall b', Button.on_pressed (buttons w' b')
                   = Some (if button_eqb b' b then transfer_to_win
                           else transfer_to_lose))
    /\ transfer_queue w' = transfer_queue w
    /\ time_queue w' = time_queue w
    /\ pending w' = pending w
    /\ (forall b' t,
           Button.state (buttons w b') = false ->
           outcomes (run_activity (at_time t (button_polls b' 0)) w')
           = outcomes w ++ [if button_eqb b' b then Game_win else Game_over]).
Proof.
  intros right Hmode.
  assert (Hr : right = 0 \/ right = 1).
  { pose proof (randint_of_range 0 1 (entropy w (S (S (S (drawn w))))) ltac:(lia)).
    unfold right. lia. }
  assert (Hrun : forall b,
             getitem [down_left_button; up_right_button] right = Some b ->
             exists w',
               pitch w = Ret tt w'
               /\ (forall b', Button.on_pressed (buttons w' b')
                              = Some (if button_eqb b' b then transfer_to_win
                                      else transfer_to_lose))
               /\ transfer_queue w' = transfer_queue w
               /\ time_queue w' = time_queue w
               /\ pending w' = pending w
               /\ (forall b', Button.state (buttons w' b') = Button.state (buttons w b'))).
  { intros b Hb. eexists. split.
    - unfold pitch. cbv beta iota delta [bind randint].
      rewrite Hmode. change (1 =? 0) with false. change (1 =? 1) with true.
      cbv beta iota. cbn [entropy drawn set_drawn]. fold right.
      rewrite Hb. reflexivity.
    - repeat split.
      + intros b'. destruct b', b; reflexivity.
      + intros b'. destruct b', b; reflexivity. }
  destruct Hr as [Hr|Hr];
    [ destruct (Hrun down_left_button ltac:(rewrite Hr; reflexivity))
        as (w' & Hp & Hw & Hq & Htq & Hpd & Hs);
      exists down_left_button, w'
    | destruct (Hrun up_right_button ltac:(rewrite Hr; reflexivity))
        as (w' & Hp & Hw & Hq & Htq & Hpd & Hs);
      exists up_right_button, w' ];
    rewrite Hr; (repeat split; try assumption; try reflexivity);
    intros b' t Hrel;
    unfold run_activity, Button.sample, outcomes;
    cbn [now what Button.is_pressed Z.eqb];
    change (buttons (set_clock t w') b') with (buttons w' b');
    rewrite Hs, Hrel; cbn [xorb negb Button.on_pressed];
    rewrite Hw; destruct (button_eqb b' _); cbn; rewrite Hq; reflexivity.
Qed.

Lemma pitch_high_low_wiring_witness :
  outcomes
    (run_activity (at_time 1 (button_polls up_right_button 0))
       (final_world (pitch (boot (entropy_of [1; 0; 0; 1]) []))))
  = [Game_win].
Proof.
  destruct (pitch_high_low_wiring (boot (entropy_of [1; 0; 0; 1]) []) eq_refl)
    as (b & w' & Hb & Hb' & Hrun & _ & _ & _ & _ & Hpress).
  rewrite Hrun. cbn [final_world].
  rewrite (Hpress up_right_button 1%Q eq_refl). rewrite Hb'. reflexivity.
Defined.

(** The low-high block when the selected button has been pressed and a
    press of another button arrives before its release. *)
Lemma pitch_low_high_yields_after_press
  (w : world) (long up right : Z) (b b' : button) (p t : Q)
  (rest : list (list activity)) :
  (up = 0 \/ up = 1) -> (right = 0 \/ right = 1) ->
  pitch_button up right = Some b ->
  b' <> b ->
  Button.state (buttons w b) = false ->
  Button.state (buttons w b') = false ->
  Button.on_pressed (buttons w b') = Some transfer_to_lose ->
  SimpleQueue._queue (transfer_queue w) = [] ->
  pending w = [[at_time p (button_polls b 0)];
               [at_time t (button_polls b' 0)]] ++ rest ->
  exists w',
    pitch_low_high long up right w = Ret Returned w'
    /\ outcomes w' = [Game_over]
    /\ pending w' = rest.
Proof.
  intros Hup Hright Hb Hne Hst Hst' Hon Hq Hpend. open_world w.
  cbn [pending transfer_queue SimpleQueue._queue] in Hq, Hpend. subst.
  destruct Hup as [-> | ->], Hright as [-> | ->]; cbn in Hb; injection Hb as <-;
    destruct b'; try (exfalso; apply Hne; reflexivity);
    cbn in Hst, Hst', Hon; subst.
  all: vm_compute; eexists; repeat split; reflexivity.
Qed.

(** The low-high block when the selected button is still held at the
    start and, after its release, a press of another button arrives. *)
Lemma pitch_low_high_yields_after_release
  (w : world) (long up right : Z) (b b' : button) (t0 t : Q)
  (rest : list (list activity)) :
  (up = 0 \/ up = 1) -> (right = 0 \/ right = 1) ->
  pitch_button up right = Some b ->
  b' <> b ->
  Button.state (buttons w b) = true ->
  Button.state (buttons w b') = false ->
  Button.on_pressed (buttons w b') = Some transfer_to_lose ->
  SimpleQueue._queue (transfer_queue w) = [] ->
  pending w = [[at_time t0 (button_polls b 1)];
               [at_time t (button_polls b' 0)]] ++ rest ->
  exists w',
    pitch_low_high long up right w = Ret Returned w'
    /\ outcomes w' = [Game_over]
    /\ pending w' = rest.
Proof.
  intros Hup Hright Hb Hne Hst Hst' Hon Hq Hpend. open_world w.
  cbn [pending transfer_queue SimpleQueue._queue] in Hq, Hpend. subst.
  destruct Hup as [-> | ->], Hright as [-> | ->]; cbn in Hb; injection Hb as <-;
    destruct b'; try (exfalso; apply Hne; reflexivity);
    cbn in Hst, Hst', Hon; subst.
  all: vm_compute; eexists; repeat split; reflexivity.
Qed.

(** X13.  In the low-high mode of [pitch], a press of another button
    that arrives after a first timing record - the press of the selected
    button, or the release of the selected button that was still held at
    the start - makes [pitch] return without raising, with the Game_over
    of that press as the only outcome queued. *)
Theorem pitch_preempted_after_record_returns
  (w : world) (b b' : button) (t1 t : Q) (rest : list (list activity)) :
  let up := randint_of 0 1 (entropy w (S (S (drawn w)))) in
  let right := randint_of 0 1 (entropy w (S (S (S (drawn w))))) in
  randint_of 0 1 (entropy w (drawn w)) = 0 ->
  pitch_button up right = Some b ->
  b' <> b ->
  Button.state (buttons w b') = false ->
  SimpleQueue._queue (transfer_queue w) = [] ->
  (Button.state (buttons w b) = false
   /\ pending w = [[at_time t1 (button_polls b 0)];
                   [at_time t (button_polls b' 0)]] ++ rest)
  \/ (Button.state (buttons w b) = true
      /\ pending w = [[at_time t1 (button_polls b 1)];
                      [at_time t (button_polls b' 0)]] ++ rest) ->
  exists w',
    pitch w = Ret tt w'
    /\ outcomes w' = [Game_over]
    /\ pending w' = rest.
Proof.
  intros up right Hmode Hb Hne Hst' Hq Hcase.
  assert (Hup : up = 0 \/ up = 1).
  { pose proof (randint_of_range 0 1 (entropy w (S (S (drawn w)))) ltac:(lia)).
    unfold up. lia. }
  assert (Hright : right = 0 \/ right = 1).
  { pose proof (randint_of_range 0 1 (entropy w (S (S (S (drawn w))))) ltac:(lia)).
    unfold right. lia. }
  enter_pitch_low_high Hmode. fold up right.
  match goal with
  | |- context [pitch_low_high ?long up right ?w0] =>
      assert (Hblock : exists w',
                 pitch_low_high long up right w0 = Ret Returned w'
                 /\ outcomes w' = [Game_over] /\ pending w' = rest)
  end.
  { destruct Hcase as [[Hst Hpend]|[Hst Hpend]].
    - apply (pitch_low_high_yields_after_press _ _ up right b b' t1 t rest);
        try assumption; try (destruct b; exact Hst);
        try (destruct b'; exact Hst'); destruct b'; reflexivity.
    - apply (pitch_low_high_yields_after_release _ _ up right b b' t1 t rest);
        try assumption; try (destruct b; exact Hst);
        try (destruct b'; exact Hst'); destruct b'; reflexivity. }
  destruct Hblock as (w' & Hrun & Ho & Hp).
  exists w'. rewrite Hrun. repeat split; assumption.
Qed.

Lemma pitch_preempted_after_record_returns_witness :
  outcomes
    (final_world
       (pitch (boot (entropy_of [0; 1; 1; 1])
                 [[at_time 1 (button_polls up_right_button 0)];
                  [at_time 1.2 (button_polls down_left_button 0)]])))
  = [Game_over].
Proof.
  destruct (pitch_preempted_after_record_returns
              (boot (entropy_of [0; 1; 1; 1])
                 [[at_time 1 (button_polls up_right_button 0)];
                  [at_time 1.2 (button_polls down_left_button 0)]])
              up_right_button down_left_button 1 1.2 []
              eq_refl eq_refl ltac:(discriminate) eq_refl eq_refl
              (or_introl (conj eq_refl eq_refl)))
    as (w' & Hrun & Hout & _).
  rewrite Hrun. exact Hout.
Defined.

(** ** [game] and the start of [main] *)

(** X14.  [game(time)] arms the countdown and hands over exactly one
    challenge.  It always returns; afterwards the display's callback is
    [transfer_to_lose], its second lies in 0..59 and its pair stands for
    [time] seconds, its running flag is set and one more display-loop
    task is pending; the transfer queue has gained one item, [morse()]
    if the draw is 1 and [pitch()] if it is 0; the buttons, the paused
    flag and the schedule are untouched.  If the display is not paused,
    its loop then runs down to 0:00 and awaits [transfer_to_lose]
    exactly once. *)
Theorem game_arms_and_hands_over (time : Z) (w : world) :
  exists w',
    game time w = Ret tt w'
    /\ outcomes w'
       = outcomes w
         ++ [if randint_of 0 1 (entropy w (drawn w)) =? 0 then Pitch else Morse]
    /\ DigitalDisplay.timeup_callback (digital_display w') = Some transfer_to_lose
    /\ 0 <= DigitalDisplay.second (digital_display w') <= 59
    /\ DigitalDisplay.duration (DigitalDisplay.minute (digital_display w'))
                               (DigitalDisplay.second (digital_display w'))
       = time
    /\ DigitalDisplay.loop_runing (digital_display w') = true
    /\ tasks w' = tasks w ++ [EventLoop.mk_task DigitalDisplay_loop EventLoop.Pending]
    /\ panel w' = panel w
    /\ pending w' = pending w
    /\ DigitalDisplay.is_pause (digital_display w')
       = DigitalDisplay.is_pause (digital_display w)
    /\ (DigitalDisplay.is_pause (digital_display w) = false ->
        exists n : nat,
          forall extra : nat,
            let r := DigitalDisplay.loop (S n + extra) (digital_display w') in
            DigitalDisplay.loop_runing (snd r) = false
            /\ DigitalDisplay.timeups (fst r) = 1%nat
            /\ last (fst r) (DigitalDisplay.sleep 0)
               = DigitalDisplay.timeup transfer_to_lose).
Proof.
  assert (Hrun : exists w',
             game time w = Ret tt w'
             /\ outcomes w'
                = outcomes w
                  ++ [if randint_of 0 1 (entropy w (drawn w)) =? 0
                      then Pitch else Morse]
             /\ digital_display w'
                = fst (DigitalDisplay.start
                         (DigitalDisplay.set_time time 0
                            (DigitalDisplay.set_timeup_callback transfer_to_lose
                               (digital_display w)))
                         (tasks w))
             /\ tasks w' = tasks w ++ [EventLoop.mk_task DigitalDisplay_loop EventLoop.Pending]
             /\ panel w' = panel w
             /\ pending w' = pending w).
  { unfold game. cbv beta iota delta [bind randint modify].
    unfold DigitalDisplay.start, AsyncLooping.start, EventLoop.create_task.
    cbv beta iota.
    cbn [entropy drawn set_drawn set_digital_display set_tasks digital_display tasks].
    destruct (randint_of 0 1 (entropy w (drawn w)) =? 0);
      cbn [negb]; eexists; (split; [reflexivity|]); repeat split. }
  destruct Hrun as (w' & Hrun & Hout & Hd & Htasks & Hpanel & Hpend).
  exists w'. rewrite Hd.
  destruct (set_time_spec time 0
              (DigitalDisplay.set_timeup_callback transfer_to_lose (digital_display w)))
    as (Hs & Hdur & _).
  split; [exact Hrun|]. split; [exact Hout|].
  split; [reflexivity|]. split; [exact Hs|].
  split; [rewrite <- Hdur at 3; unfold DigitalDisplay.duration; cbn; lia|].
  split; [reflexivity|]. split; [exact Htasks|]. split; [exact Hpanel|].
  split; [exact Hpend|]. split; [reflexivity|].
  intros Hp.
  destruct (runs_down_any_opt
              (fst (DigitalDisplay.start
                      (DigitalDisplay.set_time time 0
                         (DigitalDisplay.set_timeup_callback transfer_to_lose
                            (digital_display w)))
                      (tasks w)))
              eq_refl Hp Hs) as (n & _ & Hloop).
  exists n. intros extra. cbn zeta. rewrite Hloop. cbn [fst snd].
  repeat split.
  - apply (timeups_countdown_trace n (Some transfer_to_lose)).
  - unfold countdown_trace. apply last_last.
Qed.

Lemma game_arms_and_hands_over_witness :
  exists n : nat,
    forall extra : nat,
      DigitalDisplay.timeups
        (fst (DigitalDisplay.loop (S n + extra)
                (digital_display (final_world (game 180 (boot (entropy_of [1]) []))))))
      = 1%nat.
Proof.
  destruct (game_arms_and_hands_over 180 (boot (entropy_of [1]) []))
    as (w' & Hrun & _ & _ & _ & _ & _ & _ & _ & _ & _ & Hdown).
  destruct (Hdown eq_refl) as (n & Hn).
  exists n. intros extra. rewrite Hrun. exact (proj1 (proj2 (Hn extra))).
Defined.

(** X15.  The start of [main]: every button is wired to
    [transfer_to_lose] except the one chosen by the position draw, which
    is wired to [transfer_to_game]; for every draw the table lookup
    succeeds, and the segments written to the display are the glyph in
    the corner of that button.  A press then seen on a released button
    queues [game()] for the chosen button and Game_over for any other.
    The released-callbacks and the queues are untouched. *)
Theorem main_setup_wires_one_start_button (w : world) :
  exists t b w',
    main_setup w = Ret (t, b) w'
    /\ nth_error [up_left_button; up_right_button; down_left_button; down_right_button]
         (Z.to_nat (randint_of 0 3 (entropy w (drawn w)))) = Some b
    /\ t = match b with
           | up_left_button => [99; 0; 0; 0]
           | up_right_button => [0; 0; 0; 99]
           | down_left_button => [92; 0; 0; 0]
           | down_right_button => [0; 0; 0; 92]
           end
    /\ (forall b', Button.on_pressed (buttons w' b')
                   = Some (if button_eqb b' b then transfer_to_game
                           else transfer_to_lose))
    /\ (forall b', Button.on_released (buttons w' b')
                   = Button.on_released (buttons w b'))
    /\ transfer_queue w' = transfer_queue w
    /\ (forall b' t',
           Button.state (buttons w b') = false ->
           outcomes (run_activity (at_time t' (button_polls b' 0)) w')
           = outcomes w ++ [if button_eqb b' b then Game else Game_over]).
Proof.
  assert (Hpos : randint_of 0 3 (entropy w (drawn w)) = 0
                 \/ randint_of 0 3 (entropy w (drawn w)) = 1
                 \/ randint_of 0 3 (entropy w (drawn w)) = 2
                 \/ randint_of 0 3 (entropy w (drawn w)) = 3).
  { pose proof (randint_of_range 0 3 (entropy w (drawn w)) ltac:(lia)). lia. }
  assert (Hrun : forall k t b,
             randint_of 0 3 (entropy w (drawn w)) = k ->
             getitem [([99; 0; 0; 0], up_left_button);
                      ([0; 0; 0; 99], up_right_button);
                      ([92; 0; 0; 0], down_left_button);
                      ([0; 0; 0; 92], down_right_button)] k = Some (t, b) ->
             exists w',
               main_setup w = Ret (t, b) w'
               /\ (forall b', Button.on_pressed (buttons w' b')
                              = Some (if button_eqb b' b then transfer_to_game
                                      else transfer_to_lose))
               /\ (forall b', Button.on_released (buttons w' b')
                              = Button.on_released (buttons w b'))
               /\ transfer_queue w' = transfer_queue w
               /\ (forall b', Button.state (buttons w' b') = Button.state (buttons w b'))).
  { intros k t b Hk Hg. eexists. split.
    - unfold main_setup. unfold set_all_buttons_with, set_on_pressed, modify.
      cbv beta iota delta [bind randint].
      cbn [entropy drawn update_button set_panel].
      rewrite Hk, Hg. reflexivity.
    - repeat split; intros b'; destruct b', b; reflexivity. }
  destruct Hpos as [Hk|[Hk|[Hk|Hk]]];
    [ destruct (Hrun 0 _ _ Hk eq_refl) as (w' & Hm & Hw & Hrel & Hq & Hs);
      exists [99; 0; 0; 0], up_left_button, w'
    | destruct (Hrun 1 _ _ Hk eq_refl) as (w' & Hm & Hw & Hrel & Hq & Hs);
      exists [0; 0; 0; 99], up_right_button, w'
    | destruct (Hrun 2 _ _ Hk eq_refl) as (w' & Hm & Hw & Hrel & Hq & Hs);
      exists [92; 0; 0; 0], down_left_button, w'
    | destruct (Hrun 3 _ _ Hk eq_refl) as (w' & Hm & Hw & Hrel & Hq & Hs);
      exists [0; 0; 0; 92], down_right_button, w' ];
    rewrite Hk; (repeat split; try assumption; try reflexivity);
    intros b' t' Hst;
    unfold run_activity, Button.sample, outcomes;
    cbn [now what Button.is_pressed Z.eqb];
    change (buttons (set_clock t' w') b') with (buttons w' b');
    rewrite Hs, Hst; cbn [xorb negb Button.on_pressed];
    rewrite Hw; destruct (button_eqb b' _); cbn; rewrite Hq; reflexivity.
Qed.

Lemma main_setup_wires_one_start_button_witness :
  outcomes
    (run_activity (at_time 1 (button_polls down_left_button 0))
       (final_world (main_setup (boot (entropy_of [2]) []))))
  = [Game].
Proof.
  destruct (main_setup_wires_one_start_button (boot (entropy_of [2]) []))
    as (t & b & w' & Hrun & Hb & _ & _ & _ & _ & Hpress).
  rewrite Hrun. cbn [final_world].
  rewrite (Hpress down_left_button 1%Q eq_refl).
  cbn in Hb. injection Hb as <-. reflexivity.
Defined.

(** ** The hint players *)

Section BuzzerFacts.
Import Buzzer.

Lemma sounding_app (a b : list io) :
  forall f0, sounding f0 (a ++ b) = sounding (sounding f0 a) b.
Proof.
  induction a as [|[hz|v|t] a IH]; intros f0; cbn [app sounding]; auto.
Qed.

Lemma cancel_at_app (a b : list io) :
  forall k, cancel_at (sleeps a + k) (a ++ b) = a ++ cancel_at k b.
Proof.
  induction a as [|[hz|v|t] a IH]; intros k; cbn [app sleeps cancel_at plus];
    try rewrite IH; reflexivity.
Qed.

Lemma tones_morse (tape : list Z) (tail : list io) :
  tones (flat_map play_morse_symbol tape ++ tail)
  = map (fun i => (548, if Z.eqb i 0 then 0.25%Q else 1%Q)) tape ++ tones tail.
Proof.
  induction tape as [|i tape IH]; [reflexivity|].
  cbn [flat_map map]. unfold play_morse_symbol at 1.
  destruct (i =? 0); cbn [app play tones Z.eqb]; rewrite <- IH; reflexivity.
Qed.

Lemma tones_pitch (tape : list Z) (tail : list io) :
  tones (flat_map play_pitch_symbol tape ++ tail)
  = map (fun i => (if i =? 0 then 368 else 762, 0.5%Q)) tape ++ tones tail.
Proof.
  induction tape as [|i tape IH]; [reflexivity|].
  cbn [flat_map map]. unfold play_pitch_symbol at 1.
  destruct (i =? 0); cbn [app play tones Z.eqb]; rewrite <- IH; reflexivity.
Qed.

End BuzzerFacts.

Lemma morse_tones_read_back (tape : list Z) :
  map (fun tone => Qgt_bool (snd tone) 0.5) (Buzzer.tones (play_morse_cycle tape))
  = map (fun i => negb (i =? 0)) tape.
Proof.
  unfold play_morse_cycle. rewrite tones_morse. cbn [Buzzer.tones].
  rewrite app_nil_r, map_map.
  apply map_ext. intros i. cbn [snd]. destruct (i =? 0); reflexivity.
Qed.

Lemma pitch_tones_read_back (tape : list Z) :
  map (fun tone => fst tone =? 762) (Buzzer.tones (play_pitch_cycle tape))
  = map (fun i => negb (i =? 0)) tape.
Proof.
  unfold play_pitch_cycle. rewrite tones_pitch. cbn [Buzzer.tones].
  rewrite app_nil_r, map_map.
  apply map_ext. intros i. cbn [fst]. destruct (i =? 0); reflexivity.
Qed.



(** X18.  Cancelling a hint player does not silence the buzzer.  If the
    [CancelledError] arrives while the tone of a symbol is sounding (the
    sleep inside [Buzzer.play]), the trace ends there and the buzzer is
    left at that tone's frequency: 548 Hz for [play_morse], 368 or 762 Hz
    for [play_pitch].  If it arrives in the 0.1 s pause after a symbol,
    the buzzer is left silent. *)
Theorem cancelled_hint_leaves_tone (pre post : list Z) (i : Z) :
  Buzzer.sounding 0
    (Buzzer.cancel_at
       (Buzzer.sleeps (flat_map play_morse_symbol pre) + (if i =? 0 then 1 else 0))
       (play_morse_cycle (pre ++ i :: post)))
  = 548
  /\ Buzzer.sounding 0
       (Buzzer.cancel_at
          (Buzzer.sleeps (flat_map play_pitch_symbol pre))
          (play_pitch_cycle (pre ++ i :: post)))
     = (if i =? 0 then 368 else 762)
  /\ Buzzer.sounding 0
       (Buzzer.cancel_at
          (Buzzer.sleeps (flat_map play_morse_symbol pre) + (if i =? 0 then 3 else 1))
          (play_morse_cycle (pre ++ i :: post)))
     = 0
  /\ Buzzer.sounding 0
       (Buzzer.cancel_at
          (Buzzer.sleeps (flat_map play_pitch_symbol pre) + 1)
          (play_pitch_cycle (pre ++ i :: post)))
     = 0.
Proof.
  unfold play_morse_cycle, play_pitch_cycle.
  rewrite !flat_map_app. cbn [flat_map]. rewrite <- !app_assoc.
  replace (Buzzer.sleeps (flat_map play_pitch_symbol pre))
    with (Buzzer.sleeps (flat_map play_pitch_symbol pre) + 0)%nat at 1 by lia.
  rewrite !cancel_at_app, !sounding_app.
  unfold play_morse_symbol, play_pitch_symbol.
  destruct (i =? 0); repeat split; reflexivity.
Qed.

(** ** The hint agrees with the wiring *)

Lemma sum_counts_ones (l : list Z) :
  Forall (fun c => c = 0 \/ c = 1) l ->
  forall a,
    fold_left Z.add l a
    = a + Z.of_nat (List.length (filter (fun long : bool => long)
                                   (map (fun c => negb (c =? 0)) l))).
Proof.
  induction 1 as [|c l Hc _ IH]; intros a; cbn [fold_left map filter List.length].
  - lia.
  - rewrite IH. destruct Hc as [-> | ->]; cbn [Z.eqb negb List.length]; lia.
Qed.

(** X19.  In the short-code mode of [morse] the hint task is created
    with the tape 0, 1 followed by the code, and it is the only task
    added.  Its tones read back as short, long, then one tone per code
    symbol, long for a 1; the number of long tones among those four is
    [sum(code)], the number that selects the winning button. *)
Theorem morse_hint_matches_code (w : world) :
  randint_of 0 1 (entropy w (drawn w)) = 0 ->
  exists code w1 w',
    draw_code (set_drawn (S (drawn w)) w) = Ret code w1
    /\ morse w = Ret tt w'
    /\ tasks w'
       = tasks w ++ [EventLoop.mk_task (play_morse ([0; 1] ++ code)) EventLoop.Pending]
    /\ play_task w' = Some (List.length (tasks w))
    /\ map (fun tone => Qgt_bool (snd tone) 0.5)
         (Buzzer.tones (play_morse_cycle ([0; 1] ++ code)))
       = false :: true :: map (fun c => negb (c =? 0)) code
    /\ sum code
       = Z.of_nat (List.length (filter (fun long : bool => long)
                                  (map (fun c => negb (c =? 0)) code))).
Proof.
  intros Hmode.
  destruct (draw_code_spec (set_drawn (S (drawn w)) w))
    as (code & Hdraw & Hlen & Hbits & _ & Hcount).
  destruct (getitem_morse_buttons _ Hcount) as (b & Hb & _).
  exists code. do 2 eexists.
  split; [exact Hdraw|]. split; [|split; [|split; [|split]]].
  - unfold morse. cbv beta iota delta [bind randint].
    rewrite Hmode, Hdraw. cbv beta iota.
    change (0 =? 0) with true. change (0 =? 1) with false. cbv beta iota.
    rewrite Hb. reflexivity.
  - destruct b; reflexivity.
  - destruct b; reflexivity.
  - exact (morse_tones_read_back ([0; 1] ++ code)).
  - unfold sum. rewrite (sum_counts_ones code Hbits 0). lia.
Qed.

Lemma morse_hint_matches_code_witness :
  exists code w1 w',
    draw_code (set_drawn (S (drawn short_code_round)) short_code_round) = Ret code w1
    /\ morse short_code_round = Ret tt w'
    /\ tasks w'
       = tasks short_code_round
         ++ [EventLoop.mk_task (play_morse ([0; 1] ++ code)) EventLoop.Pending]
    /\ play_task w' = Some (List.length (tasks short_code_round))
    /\ map (fun tone => Qgt_bool (snd tone) 0.5)
         (Buzzer.tones (play_morse_cycle ([0; 1] ++ code)))
       = false :: true :: map (fun c => negb (c =? 0)) code
    /\ sum code
       = Z.of_nat (List.length (filter (fun long : bool => long)
                                  (map (fun c => negb (c =? 0)) code))).
Proof.
  exact (morse_hint_matches_code short_code_round eq_refl).
Defined.

(** X20.  In the high-low mode of [pitch] the hint task is created with
    the tape 1, 0, long, up, right, and it is the only task added.  Its
    tones read back as high, low, then the three draws; the last tone is
    high exactly when the winning button is up-right, low when it is
    down-left. *)
Theorem pitch_hint_matches_button (w : world) :
  let long := randint_of 0 1 (entropy w (S (drawn w))) in
  let up := randint_of 0 1 (entropy w (S (S (drawn w)))) in
  let right := randint_of 0 1 (entropy w (S (S (S (drawn w))))) in
  randint_of 0 1 (entropy w (drawn w)) = 1 ->
  exists w',
    pitch w = Ret tt w'
    /\ tasks w'
       = tasks w ++ [EventLoop.mk_task (play_pitch [1; 0; long; up; right])
                       EventLoop.Pending]
    /\ play_task w' = Some (List.length (tasks w))
    /\ map (fun tone => fst tone =? 762)
         (Buzzer.tones (play_pitch_cycle [1; 0; long; up; right]))
       = [true; false; negb (long =? 0); negb (up =? 0); negb (right =? 0)]
    /\ Button.on_pressed
         (buttons w' (if negb (right =? 0) then up_right_button else down_left_button))
       = Some transfer_to_win.
Proof.
  intros long up right Hmode.
  assert (Hr : right = 0 \/ right = 1).
  { pose proof (randint_of_range 0 1 (entropy w (S (S (S (drawn w))))) ltac:(lia)).
    unfold right. lia. }
  assert (Hb : exists b,
             getitem [down_left_button; up_right_button] right = Some b
             /\ b = (if negb (right =? 0) then up_right_button else down_left_button)).
  { destruct Hr as [-> | ->]; eexists; split; reflexivity. }
  destruct Hb as (b & Hb & Hb').
  eexists. split; [|split; [|split; [|split]]].
  - unfold pitch. cbv beta iota delta [bind randint].
    rewrite Hmode. change (1 =? 0) with false. change (1 =? 1) with true.
    cbv beta iota. cbn [entropy drawn set_drawn]. fold long up right.
    rewrite Hb. reflexivity.
  - destruct b; reflexivity.
  - destruct b; reflexivity.
  - exact (pitch_tones_read_back [1; 0; long; up; right]).
  - rewrite <- Hb'. destruct b; reflexivity.
Qed.

Lemma pitch_hint_matches_button_witness :
  exists w',
    pitch (boot (entropy_of [1; 0; 0; 1]) []) = Ret tt w'
    /\ Button.on_pressed (buttons w' up_right_button) = Some transfer_to_win.
Proof.
  destruct (pitch_hint_matches_button (boot (entropy_of [1; 0; 0; 1]) []) eq_refl)
    as (w' & Hrun & _ & _ & _ & Hwin).
  exists w'. split; [exact Hrun|exact Hwin].
Defined.
